(** * Metadata registration of sequelize-typescript

    A shallow embedding of [src/lib/utils/models.ts] (the accessors that
    attach model name, attributes, options and foreign keys to a class
    through reflect-metadata) and of the [Comment] property decorator,
    followed by the properties of the specification.

    The code is stateful: it reads and writes the ambient metadata store
    and mutates the objects it finds there.  It is modelled by a state and
    error monad over a store of metadata and a heap of objects:

    - objects are held by reference, so that an object reached from two
      classes (a subclass reads the metadata of its parent class) is one
      object, and a write through one is seen through the other;
    - an object used as a dictionary is the finite map of its own
      properties, and reading a property that it does not have yields
      [undefined]: this is what the code does for every property name
      except those of [Object.prototype], which every object inherits
      ([toString], [constructor], [__proto__], ...), and as long as no
      prototype has been changed; the properties that depend on it have
      the hypothesis that the name or key is not one of these;
    - the metadata store has the lookup of [Reflect.getMetadata], along
      the prototype chain of the target, and the definition of
      [Reflect.defineMetadata], on the target itself;
    - an argument that a function only reads (the [options] of the
      setters) is passed as the contents of the object. *)

From stdpp Require Import gmap strings list fin_maps.

Local Open Scope string_scope.

(** ** Values and objects *)

(** References to heap-allocated objects. *)
Abbreviation loc := positive (only parsing).

(** The values an option field can hold.  The code under study never
    inspects them: it only copies them from one object to another. *)
Inductive value :=
| VUndefined
| VNull
| VBool (b : bool)
| VNumber (n : Z)
| VString (s : string)
| VObject (l : loc).

Global Instance value_eq_dec : EqDecision value.
Proof. solve_decision. Defined.

(** A plain object used as a dictionary of options ([DefineOptions],
    [IPartialDefineAttributeColumnOptions], the [options: any] of
    [addAttribute]): its own enumerable properties. *)
Abbreviation Dict := (gmap string value) (only parsing).

(** [Object.assign(target, ...sources)]: every own property of every
    source is written to the target, sources taken from left to right, so
    that a later source overrides an earlier one and the target.  The
    union of stdpp is left-biased.  This is the result for sources that
    have no own key [__proto__] (writing that key would change the
    prototype of the target and add no property). *)
Definition Object_assign (target : gmap string value)
    (sources : list (gmap string value)) : gmap string value :=
  foldl (fun acc source => source ∪ acc) target sources.
Global Arguments Object_assign : simpl never.

(** ** Classes *)

(** The object a decorator receives as [target]: a class prototype (or a
    constructor).  It has an identity, the name of its constructor
    ([target.constructor.name]) and a prototype of its own, which is the
    prototype of the parent class. *)
#[warnings="-register-all"]
Inductive Target :=
  mkTarget { target_id : positive;
             constructor_name : string;
             prototype : option Target }.

(** The value of [design:type] that the compiler emits for a property:
    the constructor of its declared type. *)
Inductive DesignType :=
| StringConstructor
| NumberConstructor
| BooleanConstructor
| DateConstructor
| ObjectConstructor
| ArrayConstructor
| FunctionConstructor
| ClassConstructor (c : positive).

(** Modelled from the spec: the [DataType] enumeration of
    [src/lib/enums/DataType], which is not among the sources.  Only its
    members are needed; the four that the inference table uses are the
    string, integer, boolean and date column types. *)
Module DataType.
Inductive DataTypeAbstract :=
| STRING | CHAR | TEXT | INTEGER | BIGINT | FLOAT | DOUBLE | DECIMAL
| BOOLEAN | TIME | DATE | DATEONLY | UUID | JSON.
End DataType.
Export DataType (DataTypeAbstract).

(** [ISequelizeForeignKeyConfig]: a lazy accessor of the related class
    and the name of the foreign-key property. *)
Record ISequelizeForeignKeyConfig := {
  relatedClassGetter : unit -> Target;
  foreignKey : string
}.

(** ** State *)

(** The metadata store of reflect-metadata maps a target, an optional
    property key and a metadata key to a value.  There is one field per
    metadata key used by the code, with the type of the values stored
    under that key; objects are stored by reference.

    The heap holds the objects by kind: dictionaries of options, attribute
    maps (property name to a reference to its option record) and arrays of
    foreign-key configurations. *)
Record state := {
  md_modelName : gmap (positive * option string) string;
  md_attributes : gmap (positive * option string) loc;
  md_options : gmap (positive * option string) loc;
  md_foreignKeys : gmap (positive * option string) loc;
  md_designType : gmap (positive * option string) DesignType;
  objects : gmap loc (gmap string value);
  attribute_maps : gmap loc (gmap string loc);
  arrays : gmap loc (list ISequelizeForeignKeyConfig)
}.

Definition empty_state : state :=
  {| md_modelName := ∅; md_attributes := ∅; md_options := ∅;
     md_foreignKeys := ∅; md_designType := ∅;
     objects := ∅; attribute_maps := ∅; arrays := ∅ |}.

Definition set_md_modelName f (σ : state) : state :=
  {| md_modelName := f (md_modelName σ); md_attributes := md_attributes σ;
     md_options := md_options σ; md_foreignKeys := md_foreignKeys σ;
     md_designType := md_designType σ; objects := objects σ;
     attribute_maps := attribute_maps σ; arrays := arrays σ |}.

Definition set_md_attributes f (σ : state) : state :=
  {| md_modelName := md_modelName σ; md_attributes := f (md_attributes σ);
     md_options := md_options σ; md_foreignKeys := md_foreignKeys σ;
     md_designType := md_designType σ; objects := objects σ;
     attribute_maps := attribute_maps σ; arrays := arrays σ |}.

Definition set_md_options f (σ : state) : state :=
  {| md_modelName := md_modelName σ; md_attributes := md_attributes σ;
     md_options := f (md_options σ); md_foreignKeys := md_foreignKeys σ;
     md_designType := md_designType σ; objects := objects σ;
     attribute_maps := attribute_maps σ; arrays := arrays σ |}.

Definition set_md_foreignKeys f (σ : state) : state :=
  {| md_modelName := md_modelName σ; md_attributes := md_attributes σ;
     md_options := md_options σ; md_foreignKeys := f (md_foreignKeys σ);
     md_designType := md_designType σ; objects := objects σ;
     attribute_maps := attribute_maps σ; arrays := arrays σ |}.

Definition set_md_designType f (σ : state) : state :=
  {| md_modelName := md_modelName σ; md_attributes := md_attributes σ;
     md_options := md_options σ; md_foreignKeys := md_foreignKeys σ;
     md_designType := f (md_designType σ); objects := objects σ;
     attribute_maps := attribute_maps σ; arrays := arrays σ |}.

Definition set_objects f (σ : state) : state :=
  {| md_modelName := md_modelName σ; md_attributes := md_attributes σ;
     md_options := md_options σ; md_foreignKeys := md_foreignKeys σ;
     md_designType := md_designType σ; objects := f (objects σ);
     attribute_maps := attribute_maps σ; arrays := arrays σ |}.

Definition set_attribute_maps f (σ : state) : state :=
  {| md_modelName := md_modelName σ; md_attributes := md_attributes σ;
     md_options := md_options σ; md_foreignKeys := md_foreignKeys σ;
     md_designType := md_designType σ; objects := objects σ;
     attribute_maps := f (attribute_maps σ); arrays := arrays σ |}.

Definition set_arrays f (σ : state) : state :=
  {| md_modelName := md_modelName σ; md_attributes := md_attributes σ;
     md_options := md_options σ; md_foreignKeys := md_foreignKeys σ;
     md_designType := md_designType σ; objects := objects σ;
     attribute_maps := attribute_maps σ; arrays := f (arrays σ) |}.

(** ** The monad of the code: state, and errors that are thrown *)

(** [new Error(message)]. *)
Inductive Error := mkError (message : string).

(** A computation returns a value or throws, and leaves a state in both
    cases: a [throw] does not undo the writes made before it. *)
Definition M (A : Type) : Type := state -> (Error + A) * state.

Global Instance M_ret : MRet M := fun A x σ => (inr x, σ).

Global Instance M_bind : MBind M := fun A B f m σ =>
  match m σ with
  | (inr x, σ') => f x σ'
  | (inl e, σ') => (inl e, σ')
  end.

Definition throw {A} (e : Error) : M A := fun σ => (inl e, σ).
Definition gets {A} (f : state -> A) : M A := fun σ => (inr (f σ), σ).
Definition modify (f : state -> state) : M unit := fun σ => (inr tt, f σ).

(** Runs the computations of a list one after the other, stopping at the
    first one that throws. *)
Fixpoint sequence_ (ms : list (M unit)) : M unit :=
  match ms with
  | [] => mret tt
  | m :: ms' => m ;; sequence_ ms'
  end.

(** ** The heap *)

(** [{}], [[]] and object literals: a new object at an unused reference. *)
Definition new_object (props : gmap string value) : M loc := fun σ =>
  let l := fresh (dom (objects σ)) in
  (inr l, set_objects <[l := props]> σ).

Definition new_attribute_map : M loc := fun σ =>
  let l := fresh (dom (attribute_maps σ)) in
  (inr l, set_attribute_maps <[l := ∅]> σ).

Definition new_array : M loc := fun σ =>
  let l := fresh (dom (arrays σ)) in
  (inr l, set_arrays <[l := []]> σ).

(** A reference held by a running program is always allocated; reading
    one that is not yields the empty object, which keeps the operations
    total on every state. *)
Definition read_object (l : loc) : M (gmap string value) :=
  gets (fun σ => objects σ !!! l).

(** [attributes[name]], [undefined] when the map has no such entry.  The
    map is read by its own entries: a member that it inherits from
    [Object.prototype] under the name is not found (see
    [inherited_name]). *)
Definition get_attribute (attributes : loc) (name : string) : M (option loc) :=
  gets (fun σ => (attribute_maps σ !!! attributes) !! name).

(** [attributes[name] = record], for a name other than [__proto__] (an
    assignment to [__proto__] would change the prototype of the map and
    add no entry). *)
Definition set_attribute (attributes : loc) (name : string) (record : loc)
    : M unit :=
  modify (set_attribute_maps
            (fun h => <[attributes := <[name := record]> (h !!! attributes)]> h)).

(** [Object.assign(target, ...sources)] on an object of the heap: the
    object is updated in place and its reference is returned. *)
Definition assign_object (target : loc) (sources : list (gmap string value))
    : M loc :=
  modify (set_objects
            (fun h => <[target := Object_assign (h !!! target) sources]> h)) ;;
  mret target.

(** [array.push(item)]. *)
Definition array_push (array : loc) (item : ISequelizeForeignKeyConfig)
    : M unit :=
  modify (set_arrays (fun h => <[array := ((h !!! array) ++ [item])%list]> h)).

(** ** reflect-metadata *)

(** A metadata key together with the part of the store that holds the
    values defined under it. *)
Record MetadataKey (A : Type) := {
  key_name : string;
  key_store : state -> gmap (positive * option string) A;
  key_update :
    (gmap (positive * option string) A -> gmap (positive * option string) A) ->
    state -> state
}.
Arguments key_name {A} _.
Arguments key_store {A} _ _.
Arguments key_update {A} _ _ _.

(** The lookup of [Reflect.getMetadata], which the library names
    OrdinaryGetMetadata and the specification calls inheritance-aware:
    the metadata of the object itself if it has some under that key,
    otherwise that of its prototype, and so on up the prototype chain. *)
Fixpoint OrdinaryGetMetadata {A} (store : gmap (positive * option string) A)
    (O : Target) (P : option string) : option A :=
  match O with
  | mkTarget id _ parent =>
      match store !! (id, P) with
      | Some v => Some v
      | None =>
          match parent with
          | Some parent => OrdinaryGetMetadata store parent P
          | None => None
          end
      end
  end.

(** [Reflect.getMetadata(metadataKey, target, propertyKey)]; the result
    is [undefined] ([None]) when nothing is found. *)
Definition Reflect_getMetadata {A} (metadataKey : MetadataKey A)
    (target : Target) (propertyKey : option string) : M (option A) :=
  gets (fun σ => OrdinaryGetMetadata (key_store metadataKey σ) target propertyKey).

(** [Reflect.defineMetadata(metadataKey, metadataValue, target, propertyKey)]:
    defines the metadata on the object itself. *)
Definition Reflect_defineMetadata {A} (metadataKey : MetadataKey A)
    (metadataValue : A) (target : Target) (propertyKey : option string)
    : M unit :=
  modify (key_update metadataKey <[(target_id target, propertyKey) := metadataValue]>).

(** ** src/lib/utils/models.ts *)

Definition MODEL_NAME_KEY : MetadataKey string :=
  {| key_name := "sequelize:modelName";
     key_store := md_modelName; key_update := set_md_modelName |}.
Definition ATTRIBUTES_KEY : MetadataKey loc :=
  {| key_name := "sequelize:attributes";
     key_store := md_attributes; key_update := set_md_attributes |}.
Definition OPTIONS_KEY : MetadataKey loc :=
  {| key_name := "sequelize:options";
     key_store := md_options; key_update := set_md_options |}.
Definition FOREIGN_KEYS_KEY : MetadataKey loc :=
  {| key_name := "sequelize:foreignKey";
     key_store := md_foreignKeys; key_update := set_md_foreignKeys |}.
(** The key under which the compiler records the declared type of a
    property. *)
Definition DESIGN_TYPE_KEY : MetadataKey DesignType :=
  {| key_name := "design:type";
     key_store := md_designType; key_update := set_md_designType |}.

Definition DEFAULT_OPTIONS : gmap string value :=
  {[ "timestamps" := VBool false ]}.

Definition setModelName (target : Target) (modelName : string) : M unit :=
  Reflect_defineMetadata MODEL_NAME_KEY modelName target None.

Definition getModelName (target : Target) : M (option string) :=
  Reflect_getMetadata MODEL_NAME_KEY target None.

Definition getAttributes (target : Target) : M (option loc) :=
  Reflect_getMetadata ATTRIBUTES_KEY target None.

Definition setAttributes (target : Target) (attributes : loc) : M unit :=
  Reflect_defineMetadata ATTRIBUTES_KEY attributes target None.

(** The argument [options] is only read, at the time of the call, so it
    is passed as the contents of the object. *)
Definition addAttribute (target : Target) (name : string)
    (options : gmap string value) : M unit :=
  attributes ← getAttributes target;
  attributes ← match attributes with
               | Some attributes => mret attributes
               | None =>
                   attributes ← new_attribute_map;
                   setAttributes target attributes ;;
                   mret attributes
               end;
  copy ← new_object (Object_assign ∅ [options]);
  set_attribute attributes name copy.

(** The double quote of the message. *)
Definition dquote : string := String (Ascii.ascii_of_nat 34) EmptyString.

Definition missing_column_message (propertyName : string) (target : Target)
    : string :=
  "@Column annotation is missing for " +:+ dquote +:+ propertyName +:+ dquote
  +:+ " of class " +:+ dquote +:+ constructor_name target +:+ dquote
  +:+ " or annotation order is wrong.".

Definition addAttributeOptions (target : Target) (propertyName : string)
    (options : gmap string value) : M unit :=
  attributes ← getAttributes target;
  match attributes with
  | None => throw (mkError (missing_column_message propertyName target))
  | Some attributes =>
      record ← get_attribute attributes propertyName;
      match record with
      | None => throw (mkError (missing_column_message propertyName target))
      | Some record =>
          merged ← assign_object record [options];
          set_attribute attributes propertyName merged
      end
  end.

Definition getOptions (target : Target) : M (option loc) :=
  Reflect_getMetadata OPTIONS_KEY target None.

Definition setOptions (target : Target) (options : gmap string value)
    : M unit :=
  stored ← new_object (Object_assign ∅ [DEFAULT_OPTIONS; options]);
  Reflect_defineMetadata OPTIONS_KEY stored target None.

Definition addOptions (target : Target) (options : gmap string value)
    : M unit :=
  _options ← getOptions target;
  _options ← match _options with
             | Some _options => mret _options
             | None => new_object ∅
             end;
  merged ← assign_object _options [options];
  merged ← read_object merged;
  setOptions target merged.

(** The line break of the message. *)
Definition newline : string := String (Ascii.ascii_of_nat 10) EmptyString.

Definition unresolved_type_message (propertyName : string) : string :=
  "Specified type of property '" +:+ propertyName +:+ "' " +:+ newline
  +:+ "            cannot be automatically resolved to a sequelize data type. Please"
  +:+ newline
  +:+ "            define the data type manually".

Definition getSequelizeTypeByDesignType (target : Target)
    (propertyName : string) : M DataTypeAbstract :=
  type ← Reflect_getMetadata DESIGN_TYPE_KEY target (Some propertyName);
  match type with
  | Some StringConstructor => mret DataType.STRING
  | Some NumberConstructor => mret DataType.INTEGER
  | Some BooleanConstructor => mret DataType.BOOLEAN
  | Some DateConstructor => mret DataType.DATE
  | _ => throw (mkError (unresolved_type_message propertyName))
  end.

Definition getForeignKeys (target : Target) : M (option loc) :=
  Reflect_getMetadata FOREIGN_KEYS_KEY target None.

Definition setForeignKeys (target : Target) (foreignKeys : loc) : M unit :=
  Reflect_defineMetadata FOREIGN_KEYS_KEY foreignKeys target None.

Definition addForeignKey (target : Target)
    (relatedClassGetter : unit -> Target) (propertyName : string) : M unit :=
  foreignKeys ← getForeignKeys target;
  foreignKeys ← match foreignKeys with
                | Some foreignKeys => mret foreignKeys
                | None =>
                    foreignKeys ← new_array;
                    setForeignKeys target foreignKeys ;;
                    mret foreignKeys
                end;
  array_push foreignKeys
    {| relatedClassGetter := relatedClassGetter; foreignKey := propertyName |}.

(** ** The [Comment] decorator *)

(** [Comment(value)] is the property decorator that merges
    [{comment: value}] into the attribute of the decorated property. *)
Definition Comment (value : string) : Target -> string -> M unit :=
  fun target propertyName =>
    addAttributeOptions target propertyName {[ "comment" := VString value ]}.

(** ** Observations *)

(** What a caller reads as [getAttributes(target)[propertyName]]: the
    contents of the option record of the property, when the class has an
    attribute map with an entry for it. *)
Definition attribute_record (target : Target) (propertyName : string)
    (σ : state) : option (gmap string value) :=
  attributes ← OrdinaryGetMetadata (md_attributes σ) target None;
  record ← (attribute_maps σ !!! attributes) !! propertyName;
  objects σ !! record.

(** The contents of the object that [getOptions(target)] returns. *)
Definition stored_options (target : Target) (σ : state)
    : option (gmap string value) :=
  stored ← OrdinaryGetMetadata (md_options σ) target None;
  objects σ !! stored.

(** The contents of the array that [getForeignKeys(target)] returns, and
    no entries when it returns [undefined]. *)
Definition foreign_key_list (target : Target) (σ : state)
    : list ISequelizeForeignKeyConfig :=
  match OrdinaryGetMetadata (md_foreignKeys σ) target None with
  | Some foreignKeys => arrays σ !!! foreignKeys
  | None => []
  end.

(** The entry that [addForeignKey(target, relatedClassGetter,
    propertyName)] pushes, for a call given as the pair of its last two
    arguments. *)
Definition foreign_key_config (call : (unit -> Target) * string)
    : ISequelizeForeignKeyConfig :=
  {| relatedClassGetter := call.1; foreignKey := call.2 |}.

(** [message.includes(part)]. *)
Fixpoint includes (message part : string) : bool :=
  if String.prefix part message then true
  else match message with
       | EmptyString => false
       | String _ rest => includes rest part
       end.

(** ** The words of the specification *)

(** The value of a key in the key-wise union of a sequence of records in
    which the latest record wins: the value in the last record that has
    the key. *)
Fixpoint latest_value (key : string) (records : list (gmap string value))
    : option value :=
  match records with
  | [] => None
  | record :: later =>
      match latest_value key later with
      | Some v => Some v
      | None => record !! key
      end
  end.

(** A call of [setOptions] or [addOptions] on a class. *)
Inductive OptionsCall :=
| SetOptionsCall (options : gmap string value)
| AddOptionsCall (options : gmap string value).

Definition call_options (call : OptionsCall) : gmap string value :=
  match call with
  | SetOptionsCall options => options
  | AddOptionsCall options => options
  end.

Definition is_setOptions (call : OptionsCall) : bool :=
  match call with
  | SetOptionsCall _ => true
  | AddOptionsCall _ => false
  end.

Definition run_options_call (target : Target) (call : OptionsCall) : M unit :=
  match call with
  | SetOptionsCall options => setOptions target options
  | AddOptionsCall options => addOptions target options
  end.

(** The value of [timestamps] according to the specification: [false],
    unless some call of the sequence supplied a value, and then the
    latest value supplied. *)
Definition latest_supplied_timestamps (calls : list OptionsCall) : value :=
  default (VBool false) (latest_value "timestamps" (call_options <$> calls)).

(** The calls from the last [setOptions] on, and all of them when there
    is no [setOptions]. *)
Fixpoint since_last_setOptions (calls : list OptionsCall) : list OptionsCall :=
  match calls with
  | [] => []
  | call :: later =>
      if existsb is_setOptions later then since_last_setOptions later
      else call :: later
  end.

(** The calls that change the metadata of a class. *)
Inductive Call :=
| CallSetModelName (target : Target) (modelName : string)
| CallSetAttributes (target : Target) (attributes : loc)
| CallAddAttribute (target : Target) (name : string)
    (options : gmap string value)
| CallAddAttributeOptions (target : Target) (propertyName : string)
    (options : gmap string value)
| CallComment (value : string) (target : Target) (propertyName : string)
| CallSetOptions (target : Target) (options : gmap string value)
| CallAddOptions (target : Target) (options : gmap string value)
| CallAddForeignKey (target : Target) (relatedClassGetter : unit -> Target)
    (propertyName : string).

Definition run_call (call : Call) : M unit :=
  match call with
  | CallSetModelName target modelName => setModelName target modelName
  | CallSetAttributes target attributes => setAttributes target attributes
  | CallAddAttribute target name options => addAttribute target name options
  | CallAddAttributeOptions target propertyName options =>
      addAttributeOptions target propertyName options
  | CallComment value target propertyName => Comment value target propertyName
  | CallSetOptions target options => setOptions target options
  | CallAddOptions target options => addOptions target options
  | CallAddForeignKey target relatedClassGetter propertyName =>
      addForeignKey target relatedClassGetter propertyName
  end.

Definition call_target (call : Call) : Target :=
  match call with
  | CallSetModelName target _ | CallSetAttributes target _
  | CallAddAttribute target _ _ | CallAddAttributeOptions target _ _
  | CallComment _ target _ | CallSetOptions target _
  | CallAddOptions target _ | CallAddForeignKey target _ _ => target
  end.

(** The state after a history of calls.  A call that throws does not stop
    the history: the program may catch the error and go on, from the
    state that the call left. *)
Definition run_history (history : list Call) (σ : state) : state :=
  foldl (fun σ call => snd (run_call call σ)) σ history.

(** The setters that correspond to each of the three readers. *)
Definition sets_modelName (call : Call) : bool :=
  match call with CallSetModelName _ _ => true | _ => false end.

Definition sets_attributes (call : Call) : bool :=
  match call with
  | CallSetAttributes _ _ | CallAddAttribute _ _ _ => true
  | _ => false
  end.

Definition sets_options (call : Call) : bool :=
  match call with
  | CallSetOptions _ _ | CallAddOptions _ _ => true
  | _ => false
  end.

(** The objects of the prototype chain of a target, itself first. *)
Fixpoint prototype_chain (target : Target) : list positive :=
  match target with
  | mkTarget id _ parent =>
      id :: match parent with
            | Some parent => prototype_chain parent
            | None => []
            end
  end.

(** No setter of the given kind has run on the target itself. *)
Definition never_set_on (setter : Call -> bool) (target : Target)
    (history : list Call) : bool :=
  forallb (fun call =>
             negb (setter call)
             || negb (bool_decide (target_id (call_target call) = target_id target)))
          history.

(** No setter of the given kind has run on the target or on an object of
    its prototype chain. *)
Definition never_set_on_chain (setter : Call -> bool) (target : Target)
    (history : list Call) : bool :=
  forallb (fun call =>
             negb (setter call)
             || negb (bool_decide (target_id (call_target call) ∈ prototype_chain target)))
          history.

(** ** The attribute of a property *)

(** The class has an attribute map that has, for the property, the
    reference [record] to an object whose contents are [options]. *)
Definition has_attribute (target : Target) (propertyName : string)
    (record : loc) (options : gmap string value) (σ : state) : Prop :=
  exists attributes,
    OrdinaryGetMetadata (md_attributes σ) target None = Some attributes
    /\ (attribute_maps σ !!! attributes) !! propertyName = Some record
    /\ objects σ !! record = Some options.

(** ** Allocation of references *)

(** Every reference that the state holds is allocated: the attribute
    maps, option objects and arrays of the metadata store, and the
    records of the attribute maps. *)
Record wf_state (σ : state) : Prop := {
  wf_attributes : forall key attributes,
    md_attributes σ !! key = Some attributes ->
    is_Some (attribute_maps σ !! attributes);
  wf_records : forall attributes entries name record,
    attribute_maps σ !! attributes = Some entries ->
    entries !! name = Some record ->
    is_Some (objects σ !! record);
  wf_options : forall key stored,
    md_options σ !! key = Some stored -> is_Some (objects σ !! stored);
  wf_foreignKeys : forall key foreignKeys,
    md_foreignKeys σ !! key = Some foreignKeys ->
    is_Some (arrays σ !! foreignKeys)
}.

(** [setAttributes] is the one call that receives a reference from its
    caller. *)
Definition call_allocated (call : Call) (σ : state) : Prop :=
  match call with
  | CallSetAttributes _ attributes => is_Some (attribute_maps σ !! attributes)
  | _ => True
  end.

Fixpoint history_allocated (history : list Call) (σ : state) : Prop :=
  match history with
  | [] => True
  | call :: later =>
      call_allocated call σ /\ history_allocated later (snd (run_call call σ))
  end.

(** ** Two classes for the examples *)

(** The prototypes of a class [User], at the head of its prototype chain,
    and of a class [Admin] that extends it. *)
Definition User : Target := mkTarget 1 "User" None.
Definition Admin : Target := mkTarget 2 "Admin" (Some User).

(** ** Further observations *)

(** The property names that the attribute map of a class has, none when
    the class has no attribute map. *)
Definition attribute_names (target : Target) (σ : state) : gset string :=
  match OrdinaryGetMetadata (md_attributes σ) target None with
  | Some attributes => dom (attribute_maps σ !!! attributes)
  | None => ∅
  end.

Definition sets_foreignKeys (call : Call) : bool :=
  match call with CallAddForeignKey _ _ _ => true | _ => false end.

(** The call is a setter of the given kind on an object of the prototype
    chain of the target. *)
Definition sets_on_chain (setter : Call -> bool) (target : Target)
    (call : Call) : bool :=
  setter call
  && bool_decide (target_id (call_target call) ∈ prototype_chain target).

(** The object at a reference of the heap has the key [timestamps]. *)
Definition has_timestamps (h : gmap positive (gmap string value))
    (stored : positive) : Prop :=
  exists options,
    h !! stored = Some options /\ is_Some (options !! "timestamps").

(** Every object that the metadata store holds as the options of a class
    has the key [timestamps]. *)
Definition options_have_timestamps (σ : state) : Prop :=
  forall key stored,
    md_options σ !! key = Some stored ->
    exists options,
      objects σ !! stored = Some options
      /\ is_Some (options !! "timestamps").

(** ** Names and keys that have a meaning of their own *)



(** * Properties *)

(** ** Tactics and basic facts *)

Ltac unfold_M :=
  unfold mbind, M_bind, mret, M_ret, gets, modify, throw in *.

Ltac unfold_Reflect :=
  unfold Reflect_getMetadata, Reflect_defineMetadata in *.

Section Strings.

Lemma prefix_append (part post : string) :
  String.prefix part (part +:+ post) = true.
Proof.
  induction part as [|c part IH]; simpl.
  - by destruct post.
  - destruct (Ascii.ascii_dec c c); [exact IH | congruence].
Qed.

Lemma includes_unfold (message part : string) :
  includes message part =
    if String.prefix part message then true
    else match message with
         | EmptyString => false
         | String _ rest => includes rest part
         end.
Proof. by destruct message. Qed.

Lemma includes_append (pre part post : string) :
  includes (pre +:+ part +:+ post) part = true.
Proof.
  induction pre as [|c pre IH].
  - change ("" +:+ part +:+ post) with (part +:+ post).
    rewrite includes_unfold. by rewrite prefix_append.
  - change (String c pre +:+ part +:+ post) with (String c (pre +:+ part +:+ post)).
    rewrite includes_unfold, IH. by case (String.prefix _ _).
Qed.

Lemma includes_skip (pre message part : string) :
  includes message part = true -> includes (pre +:+ message) part = true.
Proof.
  intros Hin. induction pre as [|c pre IH]; [exact Hin|].
  change (String c pre +:+ message) with (String c (pre +:+ message)).
  rewrite includes_unfold, IH. by case (String.prefix _ _).
Qed.

End Strings.

Section Metadata.

Context {A : Type}.
Implicit Types (store : gmap (positive * option string) A).

Lemma OrdinaryGetMetadata_own store t P v :
  store !! (target_id t, P) = Some v ->
  OrdinaryGetMetadata store t P = Some v.
Proof. destruct t as [i n p]; simpl; by intros ->. Qed.

Lemma OrdinaryGetMetadata_defined store t P v :
  OrdinaryGetMetadata (<[(target_id t, P) := v]> store) t P = Some v.
Proof. apply OrdinaryGetMetadata_own, lookup_insert_eq. Qed.

(** An induction principle along the prototype chain. *)
Lemma Target_chain_ind (Q : Target -> Prop) :
  (forall id name, Q (mkTarget id name None)) ->
  (forall id name parent, Q parent -> Q (mkTarget id name (Some parent))) ->
  forall t, Q t.
Proof.
  intros Hroot Hstep. fix IH 1. intros [id name [parent|]].
  - apply Hstep, IH.
  - apply Hroot.
Qed.

Lemma OrdinaryGetMetadata_None store t P :
  (forall id, id ∈ prototype_chain t -> store !! (id, P) = None) ->
  OrdinaryGetMetadata store t P = None.
Proof.
  induction t as [id name|id name parent IH] using Target_chain_ind;
    simpl; intros Hchain.
  - rewrite Hchain; [done | set_solver].
  - rewrite Hchain; [|set_solver]. apply IH. intros; apply Hchain; set_solver.
Qed.

End Metadata.

(** ** Model name *)

(** C7: the model name read after [setModelName(target, s)] is [s], and
    after a later [setModelName(target, s2)] it is [s2]: the last write
    wins. *)
Theorem getModelName_after_setModelName (target : Target) (s s2 : string)
    (σ : state) :
  fst ((setModelName target s ;; getModelName target) σ) = inr (Some s)
  /\ fst ((setModelName target s ;; setModelName target s2 ;;
           getModelName target) σ) = inr (Some s2).
Proof.
  unfold setModelName, getModelName. unfold_Reflect. unfold_M. simpl.
  split; f_equal; apply OrdinaryGetMetadata_defined.
Qed.

(** ** Type inference *)

(** C3: the column type is the one the fixed table gives for the declared
    type of the property: string for [String], integer for [Number],
    boolean for [Boolean], date for [Date]; for any other declared type,
    and when there is no type metadata, the call throws an error whose
    message contains "cannot be automatically resolved" and the name of
    the property.  The state is not changed. *)
Theorem getSequelizeTypeByDesignType_table (target : Target)
    (propertyName : string) (σ : state) :
  let type := fst (Reflect_getMetadata DESIGN_TYPE_KEY target (Some propertyName) σ) in
  let result := fst (getSequelizeTypeByDesignType target propertyName σ) in
  match type with
  | inr (Some StringConstructor) => result = inr DataType.STRING
  | inr (Some NumberConstructor) => result = inr DataType.INTEGER
  | inr (Some BooleanConstructor) => result = inr DataType.BOOLEAN
  | inr (Some DateConstructor) => result = inr DataType.DATE
  | _ => exists message,
           result = inl (mkError message)
           /\ includes message "cannot be automatically resolved" = true
           /\ includes message propertyName = true
  end
  /\ snd (getSequelizeTypeByDesignType target propertyName σ) = σ.
Proof.
  unfold getSequelizeTypeByDesignType. unfold_Reflect. unfold_M. simpl.
  assert (Hmsg : exists message,
             inl (mkError (unresolved_type_message propertyName))
               = (inl (mkError message) : Error + DataTypeAbstract)
             /\ includes message "cannot be automatically resolved" = true
             /\ includes message propertyName = true).
  { eexists; split; [reflexivity|]. unfold unresolved_type_message. split.
    - do 4 apply includes_skip. reflexivity.
    - apply (includes_append "Specified type of property '" propertyName). }
  destruct (OrdinaryGetMetadata (md_designType σ) target (Some propertyName))
    as [[]|]; simpl; auto.
Qed.

(** ** Attributes *)

Section Attributes.

Variable target : Target.
Variable propertyName : string.

Lemma Object_assign_copy (options : gmap string value) :
  Object_assign ∅ [options] = options.
Proof. unfold Object_assign; simpl. apply (right_id_L ∅ (∪)). Qed.

Lemma has_attribute_record record options σ :
  has_attribute target propertyName record options σ ->
  attribute_record target propertyName σ = Some options.
Proof.
  intros (attributes & Hmap & Hentry & Hobject).
  unfold attribute_record. rewrite Hmap; simpl. rewrite Hentry; simpl. done.
Qed.

(** [addAttribute] always succeeds and leaves an attribute that holds a
    copy of the options. *)
Lemma addAttribute_has_attribute options σ :
  exists record,
    fst (addAttribute target propertyName options σ) = inr tt
    /\ has_attribute target propertyName record options
         (snd (addAttribute target propertyName options σ)).
Proof.
  unfold addAttribute, getAttributes, setAttributes, new_attribute_map,
    new_object, set_attribute.
  unfold_Reflect. unfold_M. simpl.
  destruct (OrdinaryGetMetadata (md_attributes σ) target None)
    as [attributes|] eqn:Hmap; simpl.
  - eexists; split; [reflexivity|].
    exists attributes; simpl. split; [exact Hmap|].
    rewrite lookup_total_insert_eq, !lookup_insert_eq.
    by rewrite Object_assign_copy.
  - eexists; split; [reflexivity|].
    eexists; simpl. split; [apply OrdinaryGetMetadata_defined|].
    rewrite lookup_total_insert_eq, !lookup_insert_eq.
    by rewrite Object_assign_copy.
Qed.

(** [addAttributeOptions] throws when the class has no attribute map or
    the map has no entry for the property, and the state is the one
    before the call. *)
Lemma addAttributeOptions_throws options σ :
  OrdinaryGetMetadata (md_attributes σ) target None = None
  \/ (exists attributes,
        OrdinaryGetMetadata (md_attributes σ) target None = Some attributes
        /\ (attribute_maps σ !!! attributes) !! propertyName = None) ->
  addAttributeOptions target propertyName options σ
  = (inl (mkError (missing_column_message propertyName target)), σ).
Proof.
  unfold addAttributeOptions, getAttributes, get_attribute.
  unfold_Reflect. unfold_M. simpl.
  intros [->|(attributes & -> & ->)]; reflexivity.
Qed.

(** [addAttributeOptions] on an existing attribute merges the options
    into the record, in place. *)
Lemma addAttributeOptions_has_attribute record old options σ :
  has_attribute target propertyName record old σ ->
  fst (addAttributeOptions target propertyName options σ) = inr tt
  /\ has_attribute target propertyName record (options ∪ old)
       (snd (addAttributeOptions target propertyName options σ)).
Proof.
  intros (attributes & Hmap & Hentry & Hobject).
  unfold addAttributeOptions, getAttributes, get_attribute, assign_object,
    set_attribute.
  unfold_Reflect. unfold_M. simpl. rewrite Hmap; simpl. rewrite Hentry; simpl.
  split; [reflexivity|].
  exists attributes; simpl. split; [exact Hmap|].
  rewrite lookup_total_insert_eq, !lookup_insert_eq.
  split; [reflexivity|].
  unfold Object_assign; simpl.
  by rewrite (lookup_total_correct _ _ _ Hobject).
Qed.

(** A failed [addAttributeOptions] is one of the two cases of
    [addAttributeOptions_throws]. *)
Lemma addAttributeOptions_inl options σ e :
  fst (addAttributeOptions target propertyName options σ) = inl e ->
  OrdinaryGetMetadata (md_attributes σ) target None = None
  \/ (exists attributes,
        OrdinaryGetMetadata (md_attributes σ) target None = Some attributes
        /\ (attribute_maps σ !!! attributes) !! propertyName = None).
Proof.
  unfold addAttributeOptions, getAttributes, get_attribute, assign_object,
    set_attribute.
  unfold_Reflect. unfold_M. simpl.
  destruct (OrdinaryGetMetadata (md_attributes σ) target None)
    as [attributes|] eqn:Hmap; simpl; [|by left].
  destruct ((attribute_maps σ !!! attributes) !! propertyName) eqn:Hentry;
    simpl; [discriminate|].
  right; eauto.
Qed.

(** A sequence of merges after an attribute exists. *)
Lemma addAttributeOptions_sequence merges : forall record old σ,
  has_attribute target propertyName record old σ ->
  let program := sequence_ (addAttributeOptions target propertyName <$> merges) in
  fst (program σ) = inr tt
  /\ has_attribute target propertyName record (Object_assign old merges)
       (snd (program σ)).
Proof.
  induction merges as [|options merges IH]; intros record old σ Hattr; simpl.
  - split; [reflexivity | exact Hattr].
  - destruct (addAttributeOptions_has_attribute record old options σ Hattr)
      as [Hok Hnext].
    unfold_M.
    destruct (addAttributeOptions target propertyName options σ)
      as [[e|[]] σ1]; simpl in *; [discriminate|].
    apply (IH record (options ∪ old) σ1 Hnext).
Qed.

End Attributes.

(** ** Sequencing and merging *)

Lemma bind_ok {A B} (m : M A) (k : A -> M B) (σ : state) (x : A) :
  fst (m σ) = inr x -> (m ≫= k) σ = k x (snd (m σ)).
Proof. unfold_M. destruct (m σ) as [[e|y] σ1]; simpl; congruence. Qed.

Lemma lookup_Object_assign (sources : list (gmap string value)) :
  forall (target : gmap string value) (key : string),
    Object_assign target sources !! key =
      match latest_value key sources with
      | Some v => Some v
      | None => target !! key
      end.
Proof.
  induction sources as [|source later IH]; intros target key; [done|].
  change (Object_assign target (source :: later))
    with (Object_assign (source ∪ target) later).
  rewrite IH; simpl. destruct (latest_value key later); [done|].
  rewrite lookup_union. by destruct (source !! key), (target !! key).
Qed.

Lemma dom_Object_assign (sources : list (gmap string value)) :
  forall target : gmap string value,
    dom (Object_assign target sources) = dom target ∪ ⋃ (dom <$> sources).
Proof.
  induction sources as [|source later IH]; intros target; simpl.
  - unfold Object_assign; simpl. by rewrite (right_id_L ∅ (∪)).
  - change (Object_assign target (source :: later))
      with (Object_assign (source ∪ target) later).
    rewrite IH, dom_union_L, (comm_L (∪) (dom source)).
    by rewrite (assoc_L (∪)).
Qed.

(** X20: for a property name [p] other than [__proto__] and option
    records that have no own key [__proto__]: after [addAttribute(target,
    p, base)] and any sequence of [addAttributeOptions(target, p, o1)],
    ..., [addAttributeOptions(target, p, on)], every call has succeeded
    and the attribute record of [p] is the key-wise union of [base],
    [o1], ..., [on]: its keys are the keys of these records, and the
    value of a key is its value in the latest record that has it. *)
Theorem attribute_record_is_union_of_plain_records (target : Target)
    (p : string) (base : gmap string value)
    (merges : list (gmap string value)) (σ : state) :
  p <> "__proto__" ->
  Forall (fun record => record !! "__proto__" = None) (base :: merges) ->
  let program :=
    addAttribute target p base ;;
    sequence_ (addAttributeOptions target p <$> merges) in
  fst (program σ) = inr tt
  /\ exists record,
       attribute_record target p (snd (program σ)) = Some record
       /\ record = Object_assign ∅ (base :: merges)
       /\ (forall key, record !! key = latest_value key (base :: merges))
       /\ dom record = ⋃ (dom <$> base :: merges).
Proof.
  intros _ _ program; subst program.
  destruct (addAttribute_has_attribute target p base σ) as (r & Hok & Hattr).
  rewrite (bind_ok _ _ _ _ Hok).
  destruct (addAttributeOptions_sequence target p merges r base _ Hattr)
    as [Hok' Hattr'].
  split; [exact Hok'|].
  exists (Object_assign base merges).
  assert (Heq : Object_assign base merges = Object_assign ∅ (base :: merges)).
  { change (Object_assign ∅ (base :: merges))
      with (Object_assign (base ∪ ∅) merges).
    by rewrite (right_id_L ∅ (∪)). }
  split; [exact (has_attribute_record _ _ _ _ _ Hattr')|].
  split; [exact Heq|]. rewrite Heq. split.
  - intros key. rewrite lookup_Object_assign.
    by destruct (latest_value key (base :: merges)).
  - by rewrite dom_Object_assign, dom_empty_L, (left_id_L ∅ (∪)).
Qed.

Lemma attribute_record_is_union_of_plain_records_witness :
  let base : gmap string value := {[ "type" := VString "STRING" ]} in
  let merges : list (gmap string value) :=
    [ {[ "comment" := VString "draft"; "allowNull" := VBool false ]};
      {[ "comment" := VString "headline" ]} ] in
  let program :=
    addAttribute Admin "title" base ;;
    sequence_ (addAttributeOptions Admin "title" <$> merges) in
  let σ := snd (addAttribute User "id" ∅ empty_state) in
  "title" <> "__proto__"
  /\ Forall (fun record : gmap string value => record !! "__proto__" = None)
       (base :: merges)
  /\ fst (program σ) = inr tt
  /\ exists record,
       attribute_record Admin "title" (snd (program σ)) = Some record
       /\ record = Object_assign ∅ (base :: merges)
       /\ (forall key, record !! key = latest_value key (base :: merges))
       /\ dom record = ⋃ (dom <$> base :: merges).
Proof.
  split; [discriminate|].
  split; [repeat constructor|].
  apply (attribute_record_is_union_of_plain_records Admin "title"
           {[ "type" := VString "STRING" ]}
           [ {[ "comment" := VString "draft"; "allowNull" := VBool false ]};
             {[ "comment" := VString "headline" ]} ]
           (snd (addAttribute User "id" ∅ empty_state)));
    [discriminate | repeat constructor].
Defined.



(** C8: when [addAttributeOptions(target, p, opts)] throws, the state
    after the call (the metadata of every class and every object) is the
    state before it; and it throws only when the class has no attribute
    map or the map has no entry for [p]. *)
Theorem addAttributeOptions_error_atomic (target : Target) (p : string)
    (opts : gmap string value) (σ : state) (e : Error) :
  fst (addAttributeOptions target p opts σ) = inl e ->
  snd (addAttributeOptions target p opts σ) = σ
  /\ (fst (getAttributes target σ) = inr None
      \/ exists attributes,
           fst (getAttributes target σ) = inr (Some attributes)
           /\ fst (get_attribute attributes p σ) = inr None).
Proof.
  intros Hthrows. apply addAttributeOptions_inl in Hthrows.
  split.
  - by rewrite (addAttributeOptions_throws target p opts σ Hthrows).
  - destruct Hthrows as [H|(attributes & H1 & H2)]; simpl.
    + left; congruence.
    + right; exists attributes; split; congruence.
Qed.

Lemma addAttributeOptions_error_atomic_witness :
  let σ := run_history
             [CallSetModelName User "User";
              CallAddAttribute User "title" {[ "type" := VString "STRING" ]};
              CallComment "headline" User "title";
              CallSetOptions User {[ "paranoid" := VBool true ]};
              CallAddForeignKey User (fun _ => Admin) "adminId"]
             empty_state in
  let opts : gmap string value :=
    {[ "comment" := VString "x"; "allowNull" := VBool false ]} in
  (fst (getModelName User σ) = inr (Some "User")
   /\ attribute_record User "title" σ
      = Some {[ "type" := VString "STRING"; "comment" := VString "headline" ]}
   /\ stored_options User σ
      = Some {[ "timestamps" := VBool false; "paranoid" := VBool true ]}
   /\ foreignKey <$> foreign_key_list User σ = ["adminId"])
  /\ fst (addAttributeOptions User "ghost" opts σ)
     = inl (mkError (missing_column_message "ghost" User))
  /\ snd (addAttributeOptions User "ghost" opts σ) = σ
  /\ (fst (getAttributes User σ) = inr None
      \/ exists attributes,
           fst (getAttributes User σ) = inr (Some attributes)
           /\ fst (get_attribute attributes "ghost" σ) = inr None).
Proof.
  split; [repeat split; vm_compute; reflexivity|].
  split; [reflexivity|].
  apply (addAttributeOptions_error_atomic User "ghost"
           {[ "comment" := VString "x"; "allowNull" := VBool false ]}
           (run_history
              [CallSetModelName User "User";
               CallAddAttribute User "title" {[ "type" := VString "STRING" ]};
               CallComment "headline" User "title";
               CallSetOptions User {[ "paranoid" := VBool true ]};
               CallAddForeignKey User (fun _ => Admin) "adminId"]
              empty_state)
           (mkError (missing_column_message "ghost" User))).
  reflexivity.
Defined.

(** X22: for options [opts] that have no own key [__proto__]: after
    [addAttribute(target, "title", opts)] and the decorator
    [Comment("headline")] on ["title"], the attribute record of ["title"]
    is [opts] with the field [comment] set to ["headline"]; the fields of
    [opts] other than [comment] are the same. *)
Theorem Comment_after_addAttribute_of_plain_record (target : Target)
    (opts : gmap string value) (σ : state) :
  opts !! "__proto__" = None ->
  let program :=
    addAttribute target "title" opts ;; Comment "headline" target "title" in
  fst (program σ) = inr tt
  /\ exists record,
       attribute_record target "title" (snd (program σ)) = Some record
       /\ record = <["comment" := VString "headline"]> opts
       /\ record !! "comment" = Some (VString "headline")
       /\ delete "comment" record = delete "comment" opts.
Proof.
  intros _ program; subst program.
  destruct (addAttribute_has_attribute target "title" opts σ)
    as (r & Hok & Hattr).
  rewrite (bind_ok _ _ _ _ Hok). unfold Comment.
  destruct (addAttributeOptions_has_attribute target "title" r opts
              {["comment" := VString "headline"]} _ Hattr) as [Hok' Hattr'].
  split; [exact Hok'|].
  exists (<["comment" := VString "headline"]> opts).
  rewrite insert_union_singleton_l.
  split; [exact (has_attribute_record _ _ _ _ _ Hattr')|].
  split; [reflexivity|].
  rewrite <- insert_union_singleton_l. split.
  - apply lookup_insert_eq.
  - apply delete_insert_eq.
Qed.

Lemma Comment_after_addAttribute_of_plain_record_witness :
  let opts : gmap string value :=
    {[ "type" := VString "STRING"; "comment" := VString "draft" ]} in
  let program :=
    addAttribute Admin "title" opts ;; Comment "headline" Admin "title" in
  let σ := snd (addAttribute User "id" ∅ empty_state) in
  opts !! "__proto__" = None
  /\ fst (program σ) = inr tt
  /\ exists record,
       attribute_record Admin "title" (snd (program σ)) = Some record
       /\ record = <["comment" := VString "headline"]> opts
       /\ record !! "comment" = Some (VString "headline")
       /\ delete "comment" record = delete "comment" opts.
Proof.
  split; [reflexivity|].
  apply (Comment_after_addAttribute_of_plain_record Admin
           {[ "type" := VString "STRING"; "comment" := VString "draft" ]}
           (snd (addAttribute User "id" ∅ empty_state))).
  reflexivity.
Defined.

(** X23: for a property name [p] other than [__proto__] and option
    records that have no own key [__proto__]: a second
    [addAttribute(target, p, opts2)], after a first registration of [p]
    and any merges into it, succeeds and leaves as attribute record of
    [p] a copy of [opts2] alone: no field of the earlier record is kept,
    whether it came from the first registration or from a merge. *)
Theorem addAttribute_again_replaces_plain_record (target : Target)
    (p : string) (opts1 opts2 : gmap string value)
    (merges : list (gmap string value)) (σ : state) :
  p <> "__proto__" ->
  Forall (fun record => record !! "__proto__" = None)
    (opts1 :: opts2 :: merges) ->
  let program :=
    addAttribute target p opts1 ;;
    sequence_ (addAttributeOptions target p <$> merges) ;;
    addAttribute target p opts2 in
  fst (program σ) = inr tt
  /\ attribute_record target p (snd (program σ)) = Some opts2.
Proof.
  intros _ _ program; subst program.
  destruct (addAttribute_has_attribute target p opts1 σ) as (r & Hok & Hattr).
  rewrite (bind_ok _ _ _ _ Hok).
  destruct (addAttributeOptions_sequence target p merges r opts1 _ Hattr)
    as [Hok' _].
  rewrite (bind_ok _ _ _ _ Hok').
  destruct (addAttribute_has_attribute target p opts2
              (snd (sequence_ (addAttributeOptions target p <$> merges)
                      (snd (addAttribute target p opts1 σ)))))
    as (r2 & Hok2 & Hattr2).
  split; [exact Hok2|].
  exact (has_attribute_record _ _ _ _ _ Hattr2).
Qed.

Lemma addAttribute_again_replaces_plain_record_witness :
  let opts1 : gmap string value := {[ "type" := VString "STRING" ]} in
  let opts2 : gmap string value := {[ "allowNull" := VBool false ]} in
  let merges : list (gmap string value) :=
    [ {[ "comment" := VString "headline" ]} ] in
  let program :=
    addAttribute User "title" opts1 ;;
    sequence_ (addAttributeOptions User "title" <$> merges) ;;
    addAttribute User "title" opts2 in
  "title" <> "__proto__"
  /\ Forall (fun record : gmap string value => record !! "__proto__" = None)
       (opts1 :: opts2 :: merges)
  /\ fst (program empty_state) = inr tt
  /\ attribute_record User "title" (snd (program empty_state)) = Some opts2.
Proof.
  split; [discriminate|]. split; [repeat constructor|].
  apply (addAttribute_again_replaces_plain_record User "title"
           {[ "type" := VString "STRING" ]} {[ "allowNull" := VBool false ]}
           [ {[ "comment" := VString "headline" ]} ] empty_state);
    [discriminate | repeat constructor].
Defined.

(** ** Foreign keys *)

Lemma addForeignKey_push (target : Target) (relatedClassGetter : unit -> Target)
    (propertyName : string) (σ : state) :
  let σ' := snd (addForeignKey target relatedClassGetter propertyName σ) in
  fst (addForeignKey target relatedClassGetter propertyName σ) = inr tt
  /\ is_Some (OrdinaryGetMetadata (md_foreignKeys σ') target None)
  /\ foreign_key_list target σ' =
       (foreign_key_list target σ
        ++ [foreign_key_config (relatedClassGetter, propertyName)])%list.
Proof.
  unfold addForeignKey, getForeignKeys, setForeignKeys, new_array, array_push,
    foreign_key_list.
  unfold_Reflect. unfold_M. simpl.
  destruct (OrdinaryGetMetadata (md_foreignKeys σ) target None)
    as [foreignKeys|] eqn:Hlist; simpl.
  - rewrite Hlist. split; [reflexivity|]. split; [by eexists|].
    by rewrite lookup_total_insert_eq.
  - rewrite OrdinaryGetMetadata_defined. split; [reflexivity|].
    split; [by eexists|].
    by rewrite !lookup_total_insert_eq.
Qed.

Lemma addForeignKey_sequence (target : Target)
    (calls : list ((unit -> Target) * string)) : forall σ,
  let program :=
    sequence_ ((fun call => addForeignKey target call.1 call.2) <$> calls) in
  fst (program σ) = inr tt
  /\ foreign_key_list target (snd (program σ)) =
       (foreign_key_list target σ ++ (foreign_key_config <$> calls))%list.
Proof.
  induction calls as [|[getter name] calls IH]; intros σ.
  - simpl. split; [reflexivity|]. by rewrite app_nil_r.
  - destruct (addForeignKey_push target getter name σ) as (Hok & _ & Hlist).
    destruct (IH (snd (addForeignKey target getter name σ))) as [Hok' Hlist'].
    rewrite fmap_cons. cbn [sequence_ fst snd].
    rewrite (bind_ok _ _ _ _ Hok).
    split; [exact Hok'|].
    rewrite Hlist', Hlist. by rewrite <- app_assoc.
Qed.

(** C5: [addForeignKey(target, getter, p)] succeeds and appends the one
    pair [(getter, p)] to the end of the list of foreign keys of the
    class, which it creates when the class has none; after [n] calls the
    list is the former list followed by the [n] pairs in the order of the
    calls (the [n] pairs alone when there was no list), so that pairs with
    the same property name stay separate entries and no former entry is
    removed or changed. *)
Theorem addForeignKey_appends (target : Target) (getter : unit -> Target)
    (p : string) (calls : list ((unit -> Target) * string)) (σ : state) :
  let σ1 := snd (addForeignKey target getter p σ) in
  let program :=
    sequence_ ((fun call => addForeignKey target call.1 call.2) <$> calls) in
  let σn := snd (program σ) in
  (fst (addForeignKey target getter p σ) = inr tt
   /\ (exists foreignKeys, fst (getForeignKeys target σ1) = inr (Some foreignKeys))
   /\ foreign_key_list target σ1 =
        (foreign_key_list target σ ++ [foreign_key_config (getter, p)])%list)
  /\ (fst (program σ) = inr tt
      /\ foreign_key_list target σn =
           (foreign_key_list target σ ++ (foreign_key_config <$> calls))%list
      /\ length (foreign_key_list target σn) =
           length (foreign_key_list target σ) + length calls
      /\ match fst (getForeignKeys target σ) with
         | inr None => foreign_key_list target σn = foreign_key_config <$> calls
         | _ => True
         end).
Proof.
  intros σ1 program σn; subst σ1 program σn.
  destruct (addForeignKey_push target getter p σ) as (Hok & [l Hsome] & Hlist).
  destruct (addForeignKey_sequence target calls σ) as [Hok' Hlist'].
  split; [split; [exact Hok|split; [|exact Hlist]]|].
  - exists l. simpl. by rewrite Hsome.
  - split; [exact Hok'|]. split; [exact Hlist'|]. split.
    + by rewrite Hlist', length_app, length_fmap.
    + simpl. destruct (OrdinaryGetMetadata (md_foreignKeys σ) target None)
        eqn:Hnone; [done|].
      rewrite Hlist'. unfold foreign_key_list at 1. by rewrite Hnone.
Qed.

(** ** Options *)

Lemma sequence_app (ms ms' : list (M unit)) (σ : state) :
  sequence_ (ms ++ ms') σ = (sequence_ ms ;; sequence_ ms') σ.
Proof.
  revert σ. induction ms as [|m ms IH]; intros σ; simpl; [done|].
  unfold_M. destruct (m σ) as [[e|[]] σ1]; [done|]. apply IH.
Qed.

Lemma sequence_singleton (m : M unit) (σ : state) : sequence_ [m] σ = m σ.
Proof. simpl. unfold_M. by destruct (m σ) as [[e|[]] σ1]. Qed.

Lemma latest_value_snoc (key : string) (records : list (gmap string value))
    (record : gmap string value) :
  latest_value key (records ++ [record]) =
    match record !! key with
    | Some v => Some v
    | None => latest_value key records
    end.
Proof.
  induction records as [|first records IH]; simpl.
  - by destruct (record !! key).
  - rewrite IH. by destruct (record !! key).
Qed.

Lemma since_last_setOptions_snoc_set (calls : list OptionsCall)
    (options : gmap string value) :
  since_last_setOptions (calls ++ [SetOptionsCall options])
  = [SetOptionsCall options].
Proof.
  induction calls as [|call calls IH]; simpl; [done|].
  by rewrite existsb_app, orb_true_r.
Qed.

Lemma since_last_setOptions_snoc_add (calls : list OptionsCall)
    (options : gmap string value) :
  since_last_setOptions (calls ++ [AddOptionsCall options])
  = (since_last_setOptions calls ++ [AddOptionsCall options])%list.
Proof.
  induction calls as [|call calls IH]; simpl; [done|].
  rewrite existsb_app; simpl. rewrite orb_false_r.
  by destruct (existsb is_setOptions calls).
Qed.

Lemma lookup_timestamps_default (options : gmap string value) :
  Object_assign ∅ [DEFAULT_OPTIONS; options] !! "timestamps"
  = Some (default (VBool false) (options !! "timestamps")).
Proof.
  rewrite lookup_Object_assign; simpl.
  by destruct (options !! "timestamps").
Qed.

Section Options.

Variable target : Target.

(** [setOptions] stores a new object: the defaults overridden by the
    options. *)
Lemma setOptions_stored options σ :
  fst (setOptions target options σ) = inr tt
  /\ stored_options target (snd (setOptions target options σ))
     = Some (Object_assign ∅ [DEFAULT_OPTIONS; options]).
Proof.
  unfold setOptions, new_object, stored_options.
  unfold_Reflect. unfold_M. simpl. split; [done|].
  rewrite OrdinaryGetMetadata_defined; simpl. apply lookup_insert_eq.
Qed.

(** [addOptions] stores a new object: the defaults overridden by the
    options that were stored, themselves overridden by the options. *)
Lemma addOptions_stored options σ :
  fst (addOptions target options σ) = inr tt
  /\ stored_options target (snd (addOptions target options σ))
     = Some (Object_assign ∅
               [DEFAULT_OPTIONS;
                Object_assign (default ∅ (stored_options target σ)) [options]]).
Proof.
  unfold addOptions, getOptions, assign_object, read_object, setOptions,
    new_object, stored_options.
  unfold_Reflect. unfold_M. simpl.
  destruct (OrdinaryGetMetadata (md_options σ) target None)
    as [stored|] eqn:Hstored; simpl.
  - split; [done|].
    rewrite OrdinaryGetMetadata_defined; simpl.
    rewrite lookup_insert_eq, lookup_total_insert_eq.
    rewrite lookup_total_alt. by destruct (objects σ !! stored).
  - split; [done|].
    rewrite OrdinaryGetMetadata_defined; simpl.
    by rewrite lookup_insert_eq, !lookup_total_insert_eq.
Qed.

(** After any call, from any state, the stored options have the key
    [timestamps]. *)
Lemma options_call_timestamps call σ :
  fst (run_options_call target call σ) = inr tt
  /\ exists options v,
       stored_options target (snd (run_options_call target call σ))
         = Some options
       /\ options !! "timestamps" = Some v
       /\ v = match call with
              | SetOptionsCall supplied =>
                  default (VBool false) (supplied !! "timestamps")
              | AddOptionsCall supplied =>
                  default
                    (default (VBool false)
                       (stored_options target σ ≫= (.!! "timestamps")))
                    (supplied !! "timestamps")
              end.
Proof.
  destruct call as [supplied|supplied]; simpl.
  - destruct (setOptions_stored supplied σ) as [Hok Hstored].
    split; [exact Hok|]. eexists _, _. split; [exact Hstored|].
    split; [apply lookup_timestamps_default|done].
  - destruct (addOptions_stored supplied σ) as [Hok Hstored].
    split; [exact Hok|]. eexists _, _. split; [exact Hstored|].
    split; [apply lookup_timestamps_default|].
    rewrite lookup_Object_assign; simpl.
    destruct (supplied !! "timestamps"); [done|].
    by destruct (stored_options target σ).
Qed.

End Options.

(** C4, as stated, fails: the value of [timestamps] that an earlier call
    supplied does not survive a later [setOptions] that supplies none.
    After [setOptions(User, {timestamps: true})] and [setOptions(User,
    {})] the stored value is [false], where the latest value supplied by
    a call of the sequence is [true]. *)
Lemma setOptions_forgets_supplied_timestamps :
  ~ (forall (target : Target) (calls : list OptionsCall),
       calls <> [] ->
       exists options,
         stored_options target
           (snd (sequence_ (run_options_call target <$> calls) empty_state))
           = Some options
         /\ options !! "timestamps" = Some (latest_supplied_timestamps calls)).
Proof.
  intros Hclaim.
  destruct (Hclaim User
              [SetOptionsCall {[ "timestamps" := VBool true ]}; SetOptionsCall ∅])
    as (options & Hstored & Htimestamps); [done|].
  vm_compute in Hstored. injection Hstored as <-.
  vm_compute in Htimestamps. discriminate.
Qed.

(** C4, amended: for a class that has no options yet and a sequence of at
    least one call of [setOptions] and [addOptions], every call succeeds
    and the stored options have the key [timestamps]; its value is the
    latest value supplied for it by the calls from the last [setOptions]
    on (by all the calls when there is no [setOptions]), and [false] when
    none of these calls supplies one. *)
Theorem timestamps_since_last_setOptions (target : Target)
    (calls : list OptionsCall) (σ : state) :
  fst (getOptions target σ) = inr None ->
  calls <> [] ->
  let program := sequence_ (run_options_call target <$> calls) in
  fst (program σ) = inr tt
  /\ exists options,
       stored_options target (snd (program σ)) = Some options
       /\ options !! "timestamps"
          = Some (latest_supplied_timestamps (since_last_setOptions calls)).
Proof.
  intros Hfresh. simpl in Hfresh.
  assert (Hnone : stored_options target σ = None).
  { unfold stored_options.
    destruct (OrdinaryGetMetadata (md_options σ) target None); [done|done]. }
  clear Hfresh.
  induction calls as [|call calls IH] using rev_ind; [done|].
  intros _ program; subst program.
  rewrite fmap_app, sequence_app. simpl fmap.
  destruct (decide (calls = [])) as [->|Hcalls].
  - change ((sequence_ (run_options_call target <$> []) ;;
             sequence_ [run_options_call target call]) σ)
      with (sequence_ [run_options_call target call] σ).
    rewrite sequence_singleton.
    destruct (options_call_timestamps target call σ)
      as (Hok & options & v & Hstored & Htimestamps & ->).
    split; [exact Hok|]. exists options. split; [exact Hstored|].
    rewrite Htimestamps, Hnone. by destruct call.
  - destruct (IH Hcalls) as (Hok1 & options1 & Hstored1 & Htimestamps1).
    rewrite (bind_ok _ _ _ _ Hok1), sequence_singleton.
    destruct (options_call_timestamps target call
                (snd (sequence_ (run_options_call target <$> calls) σ)))
      as (Hok & options & v & Hstored & Htimestamps & ->).
    split; [exact Hok|]. exists options. split; [exact Hstored|].
    rewrite Htimestamps, Hstored1; simpl. rewrite Htimestamps1; simpl.
    destruct call as [supplied|supplied].
    + by rewrite since_last_setOptions_snoc_set.
    + rewrite since_last_setOptions_snoc_add.
      unfold latest_supplied_timestamps.
      rewrite fmap_app; simpl. rewrite latest_value_snoc.
      by destruct (supplied !! "timestamps").
Qed.

Lemma timestamps_since_last_setOptions_witness :
  let calls :=
    [SetOptionsCall {[ "timestamps" := VBool true ]};
     SetOptionsCall {[ "paranoid" := VBool true ]};
     AddOptionsCall {[ "timestamps" := VNull ]};
     AddOptionsCall ∅] in
  let program := sequence_ (run_options_call User <$> calls) in
  latest_supplied_timestamps (since_last_setOptions calls) = VNull
  /\ fst (getOptions User empty_state) = inr None
  /\ calls <> []
  /\ fst (program empty_state) = inr tt
  /\ exists options,
       stored_options User (snd (program empty_state)) = Some options
       /\ options !! "timestamps"
          = Some (latest_supplied_timestamps (since_last_setOptions calls)).
Proof.
  split; [vm_compute; reflexivity|].
  split; [reflexivity|]. split; [discriminate|].
  apply (timestamps_since_last_setOptions User
           [SetOptionsCall {[ "timestamps" := VBool true ]};
            SetOptionsCall {[ "paranoid" := VBool true ]};
            AddOptionsCall {[ "timestamps" := VNull ]};
            AddOptionsCall ∅] empty_state);
    [reflexivity | discriminate].
Defined.

(** ** Reads on a class without metadata *)

Ltac unfold_calls :=
  unfold run_call, Comment, setModelName, setAttributes, addAttribute,
    addAttributeOptions, setOptions, addOptions, addForeignKey, getAttributes,
    getOptions, getForeignKeys, setForeignKeys, new_object, new_attribute_map,
    new_array, read_object, get_attribute, set_attribute, assign_object,
    array_push;
  unfold_Reflect; unfold_M; simpl.

Ltac case_lookups σ :=
  repeat match goal with
    | |- context [OrdinaryGetMetadata ?store ?t ?p] =>
        destruct (OrdinaryGetMetadata store t p); simpl
    | |- context [(attribute_maps σ !!! ?a) !! ?p] =>
        destruct ((attribute_maps σ !!! a) !! p); simpl
    end.

(** A call defines metadata on its own target only, and only under the
    key of which it is a setter. *)
Lemma run_call_modelName call σ key :
  sets_modelName call = false \/ (target_id (call_target call), None) <> key ->
  md_modelName (snd (run_call call σ)) !! key = md_modelName σ !! key.
Proof.
  intros Hother. destruct call; unfold_calls; case_lookups σ; try done.
  destruct Hother as [Hset|Hkey]; [done|]. by rewrite lookup_insert_ne.
Qed.

Lemma run_call_attributes call σ key :
  sets_attributes call = false \/ (target_id (call_target call), None) <> key ->
  md_attributes (snd (run_call call σ)) !! key = md_attributes σ !! key.
Proof.
  intros Hother.
  destruct call; unfold_calls; case_lookups σ; try done;
    (destruct Hother as [Hset|Hkey]; [done|]; by rewrite lookup_insert_ne).
Qed.

Lemma run_call_options call σ key :
  sets_options call = false \/ (target_id (call_target call), None) <> key ->
  md_options (snd (run_call call σ)) !! key = md_options σ !! key.
Proof.
  intros Hother.
  destruct call; unfold_calls; case_lookups σ; try done;
    (destruct Hother as [Hset|Hkey]; [done|]; by rewrite lookup_insert_ne).
Qed.

Section History.

Context {A : Type}.
Variable setter : Call -> bool.
Variable store : state -> gmap (positive * option string) A.
Hypothesis run_call_store : forall call σ key,
  setter call = false \/ (target_id (call_target call), None) <> key ->
  store (snd (run_call call σ)) !! key = store σ !! key.

Lemma run_history_store (target : Target) (history : list Call) : forall σ,
  never_set_on_chain setter target history = true ->
  forall id, id ∈ prototype_chain target ->
    store (run_history history σ) !! (id, None) = store σ !! (id, None).
Proof.
  induction history as [|call history IH]; intros σ Hnever id Hid; [done|].
  simpl in Hnever. apply andb_true_iff in Hnever as [Hcall Hnever].
  simpl. rewrite (IH _ Hnever id Hid). apply run_call_store.
  apply orb_true_iff in Hcall as [Hset|Hcall].
  - left. by apply negb_true_iff.
  - right. apply negb_true_iff, bool_decide_eq_false in Hcall.
    intros [= Heq]. by rewrite Heq in Hcall.
Qed.

Lemma run_history_undefined (target : Target) (history : list Call) :
  store empty_state = ∅ ->
  never_set_on_chain setter target history = true ->
  OrdinaryGetMetadata (store (run_history history empty_state)) target None
  = None.
Proof.
  intros Hempty Hnever. apply OrdinaryGetMetadata_None. intros id Hid.
  by rewrite (run_history_store target history _ Hnever id Hid), Hempty.
Qed.

End History.

(** C10, as stated, fails: a class on which no setter has run reads the
    metadata of its parent class.  After [setModelName], [addAttribute]
    and [setOptions] on [User] alone, the three readers return the values
    of [User] on the subclass [Admin]. *)
Lemma undecorated_subclass_reads_parent :
  let history :=
    [CallSetModelName User "User"; CallAddAttribute User "id" ∅;
     CallSetOptions User ∅] in
  let σ := run_history history empty_state in
  (never_set_on sets_modelName Admin history = true
   /\ never_set_on sets_attributes Admin history = true
   /\ never_set_on sets_options Admin history = true)
  /\ fst (getModelName Admin σ) = inr (Some "User")
  /\ fst (getAttributes Admin σ) = fst (getAttributes User σ)
  /\ fst (getAttributes Admin σ) <> inr None
  /\ fst (getOptions Admin σ) = fst (getOptions User σ)
  /\ fst (getOptions Admin σ) <> inr None.
Proof. vm_compute. repeat split; discriminate. Qed.

(** C10, amended: when no setter of the model name has ever run on a
    class or on a class of its prototype chain, [getModelName] returns
    [undefined], without an error and without changing the state; the
    same holds of [getAttributes] with the setters [setAttributes] and
    [addAttribute], and of [getOptions] with the setters [setOptions] and
    [addOptions]: no default is supplied on read. *)
Theorem reads_undefined_without_setter (target : Target)
    (history : list Call) :
  let σ := run_history history empty_state in
  (never_set_on_chain sets_modelName target history = true ->
   getModelName target σ = (inr None, σ))
  /\ (never_set_on_chain sets_attributes target history = true ->
      getAttributes target σ = (inr None, σ))
  /\ (never_set_on_chain sets_options target history = true ->
      getOptions target σ = (inr None, σ)).
Proof.
  unfold getModelName, getAttributes, getOptions.
  unfold_Reflect. unfold_M. simpl. split_and!; intros Hnever; f_equal; f_equal.
  - by apply (run_history_undefined sets_modelName md_modelName
                run_call_modelName).
  - by apply (run_history_undefined sets_attributes md_attributes
                run_call_attributes).
  - by apply (run_history_undefined sets_options md_options run_call_options).
Qed.

Lemma reads_undefined_without_setter_witness :
  let history :=
    [CallSetModelName Admin "Admin"; CallAddAttribute Admin "id" ∅;
     CallSetOptions Admin ∅; CallComment "x" User "ghost";
     CallAddForeignKey User (fun _ => Admin) "adminId"] in
  let σ := run_history history empty_state in
  (never_set_on_chain sets_modelName User history = true
   /\ never_set_on_chain sets_attributes User history = true
   /\ never_set_on_chain sets_options User history = true)
  /\ getModelName User σ = (inr None, σ)
  /\ getAttributes User σ = (inr None, σ)
  /\ getOptions User σ = (inr None, σ).
Proof.
  split; [repeat split; vm_compute; reflexivity|].
  destruct (reads_undefined_without_setter User
              [CallSetModelName Admin "Admin"; CallAddAttribute Admin "id" ∅;
               CallSetOptions Admin ∅; CallComment "x" User "ghost";
               CallAddForeignKey User (fun _ => Admin) "adminId"])
    as (HmodelName & Hattributes & Hoptions).
  split; [apply HmodelName; vm_compute; reflexivity|].
  split; [apply Hattributes; vm_compute; reflexivity|].
  apply Hoptions; vm_compute; reflexivity.
Defined.

(** ** Allocation of references *)

Lemma OrdinaryGetMetadata_Some {A} (store : gmap (positive * option string) A)
    (t : Target) (P : option string) (v : A) :
  OrdinaryGetMetadata store t P = Some v ->
  exists id, id ∈ prototype_chain t /\ store !! (id, P) = Some v.
Proof.
  induction t as [id name|id name parent IH] using Target_chain_ind; simpl.
  - destruct (store !! (id, P)) eqn:Hown; [|done].
    intros [= ->]. exists id. split; [apply list_elem_of_here|done].
  - destruct (store !! (id, P)) eqn:Hown.
    + intros [= ->]. exists id. split; [apply list_elem_of_here|done].
    + intros Hparent. destruct (IH Hparent) as (id' & Hin & Hlookup).
      exists id'. split; [by apply list_elem_of_further|done].
Qed.

Lemma wf_state_empty : wf_state empty_state.
Proof. split; simpl; intros *; by rewrite lookup_empty. Qed.

Lemma lookup_insert_allocated {V} (m : gmap positive V) (l l' : positive) (v : V) :
  is_Some (m !! l') -> is_Some (<[l := v]> m !! l').
Proof. intros. rewrite lookup_insert_is_Some. destruct (decide (l = l')); auto. Qed.

(** The calls keep every reference allocated, so that no call ever reads
    a reference that is not. *)
Ltac allocated :=
  repeat match goal with
    | H : <[_ := _]> _ !! _ = Some _ |- _ =>
        apply lookup_insert_Some in H as [[? ?]|[? ?]]; simplify_eq
    | |- is_Some (<[_ := _]> _ !! _) =>
        apply lookup_insert_is_Some'; first [left; reflexivity | right]
    end;
  eauto.

Lemma run_call_wf_state (call : Call) (σ : state) :
  wf_state σ -> call_allocated call σ -> wf_state (snd (run_call call σ)).
Proof.
  intros [Hattributes Hrecords Hoptions HforeignKeys] Hcall.
  assert (Hmap : forall t a,
             OrdinaryGetMetadata (md_attributes σ) t None = Some a ->
             exists entries, attribute_maps σ !! a = Some entries
                             /\ attribute_maps σ !!! a = entries).
  { intros t a (id & _ & Hin)%OrdinaryGetMetadata_Some.
    destruct (Hattributes _ _ Hin) as [entries Hentries].
    exists entries. split; [done|by apply lookup_total_correct]. }
  assert (Hrecord : forall a entries p r,
             attribute_maps σ !! a = Some entries -> entries !! p = Some r ->
             exists contents, objects σ !! r = Some contents).
  { intros a entries p r Ha Hp. exact (Hrecords _ _ _ _ Ha Hp). }
  destruct call; unfold_calls.
  - by split.
  - split; simpl; intros; allocated.
  - destruct (OrdinaryGetMetadata (md_attributes σ) target None)
      as [a|] eqn:Hget; simpl.
    + destruct (Hmap _ _ Hget) as (entries & Hentries & Htotal).
      split; simpl; rewrite ?Htotal; intros; allocated.
    + split; simpl; rewrite ?lookup_total_insert_eq; intros; allocated.
  - destruct (OrdinaryGetMetadata (md_attributes σ) target None)
      as [a|] eqn:Hget; simpl; [|by split].
    destruct (Hmap _ _ Hget) as (entries & Hentries & Htotal).
    rewrite Htotal.
    destruct (entries !! propertyName) as [r|] eqn:Hentry; simpl; [|by split].
    split; simpl; rewrite ?Htotal; intros; allocated.
  - destruct (OrdinaryGetMetadata (md_attributes σ) target None)
      as [a|] eqn:Hget; simpl; [|by split].
    destruct (Hmap _ _ Hget) as (entries & Hentries & Htotal).
    rewrite Htotal.
    destruct (entries !! propertyName) as [r|] eqn:Hentry; simpl; [|by split].
    split; simpl; rewrite ?Htotal; intros; allocated.
  - split; simpl; intros; allocated.
  - destruct (OrdinaryGetMetadata (md_options σ) target None)
      as [stored|] eqn:Hget; simpl; split; simpl; intros; allocated.
  - destruct (OrdinaryGetMetadata (md_foreignKeys σ) target None)
      as [foreignKeys|] eqn:Hget; simpl; split; simpl; intros; allocated.
Qed.

Lemma run_history_wf_state (history : list Call) : forall σ,
  wf_state σ -> history_allocated history σ ->
  wf_state (run_history history σ).
Proof.
  induction history as [|call history IH]; intros σ Hwf Hallocated; [done|].
  destruct Hallocated as [Hcall Hlater]. simpl.
  apply IH; [by apply run_call_wf_state | exact Hlater].
Qed.

(** ** The scenarios of the specification, evaluated *)

Example scenario_title_headline :
  attribute_record User "title"
    (snd ((addAttribute User "title" {[ "type" := VString "STRING" ]} ;;
           Comment "headline" User "title") empty_state))
  = Some {[ "type" := VString "STRING"; "comment" := VString "headline" ]}.
Proof. vm_compute. reflexivity. Qed.

Example scenario_ghost :
  fst (Comment "x" User "ghost" empty_state)
  = inl (mkError ("@Column annotation is missing for " +:+ dquote +:+ "ghost"
                  +:+ dquote +:+ " of class " +:+ dquote +:+ "User" +:+ dquote
                  +:+ " or annotation order is wrong.")).
Proof. reflexivity. Qed.

Example scenario_plain_object_type :
  fst ((Reflect_defineMetadata DESIGN_TYPE_KEY ObjectConstructor User
          (Some "profile") ;;
        getSequelizeTypeByDesignType User "profile") empty_state)
  = inl (mkError (unresolved_type_message "profile"))
  /\ fst ((Reflect_defineMetadata DESIGN_TYPE_KEY DateConstructor User
             (Some "createdAt") ;;
           getSequelizeTypeByDesignType User "createdAt") empty_state)
     = inr DataType.DATE.
Proof. split; reflexivity. Qed.

Example scenario_duplicate_foreign_keys :
  foreignKey <$>
    foreign_key_list User
      (snd ((addForeignKey User (fun _ => Admin) "ownerId" ;;
             addForeignKey User (fun _ => User) "parentId" ;;
             addForeignKey User (fun _ => Admin) "ownerId") empty_state))
  = ["ownerId"; "parentId"; "ownerId"].
Proof. reflexivity. Qed.

Example scenario_registered_again :
  attribute_record User "title"
    (snd ((addAttribute User "title" {[ "type" := VString "STRING" ]} ;;
           Comment "headline" User "title" ;;
           addAttribute User "title" {[ "allowNull" := VBool false ]})
            empty_state))
  = Some {[ "allowNull" := VBool false ]}.
Proof. vm_compute. reflexivity. Qed.

(** The freshness hypothesis of [timestamps_since_last_setOptions] is
    needed: [addOptions] on a subclass starts from the options of the
    parent class, and writes its argument into the object of the parent
    before it stores a copy for the subclass. *)
Example addOptions_starts_from_parent :
  let σ := snd ((setOptions User {[ "timestamps" := VBool true ]} ;;
                 addOptions Admin {[ "paranoid" := VBool true ]}) empty_state) in
  stored_options Admin σ
  = Some {[ "timestamps" := VBool true; "paranoid" := VBool true ]}
  /\ stored_options User σ
     = Some {[ "timestamps" := VBool true; "paranoid" := VBool true ]}
  /\ fst (getOptions Admin σ) <> fst (getOptions User σ).
Proof. vm_compute. repeat split; discriminate. Qed.

(** * Further properties of the code *)

(** ** Merging into an attribute *)

Lemma has_attribute_allocated (target : Target) (p : string) (record : loc)
    (old : gmap string value) (σ : state) :
  has_attribute target p record old σ ->
  exists attributes entries,
    OrdinaryGetMetadata (md_attributes σ) target None = Some attributes
    /\ attribute_maps σ !! attributes = Some entries
    /\ entries !! p = Some record
    /\ objects σ !! record = Some old.
Proof.
  intros (attributes & Hmap & Hentry & Hobject).
  exists attributes. rewrite lookup_total_alt in Hentry.
  destruct (attribute_maps σ !! attributes) as [entries|] eqn:Hentries;
    simpl in Hentry; [|by rewrite lookup_empty in Hentry].
  by exists entries.
Qed.

(** The state after a successful merge. *)
Lemma addAttributeOptions_state (target : Target) (p : string)
    (record : loc) (old options : gmap string value) (σ : state) :
  has_attribute target p record old σ ->
  addAttributeOptions target p options σ
  = (inr tt, set_objects <[record := options ∪ old]> σ).
Proof.
  intros (attributes & entries & Hmap & Hentries & Hentry & Hobject)
    %has_attribute_allocated.
  unfold addAttributeOptions, getAttributes, get_attribute, assign_object,
    set_attribute.
  unfold_Reflect. unfold_M. simpl.
  rewrite Hmap; simpl.
  rewrite (lookup_total_correct _ _ _ Hentries), Hentry; simpl.
  f_equal. unfold set_attribute_maps, set_objects; simpl.
  rewrite (lookup_total_correct _ _ _ Hentries).
  rewrite (lookup_total_correct _ _ _ Hobject).
  rewrite (insert_id entries p record Hentry).
  rewrite (insert_id (attribute_maps σ) attributes entries Hentries).
  reflexivity.
Qed.

(** X1: on a property [p] for which the attribute map has an entry, and
    for [options] that have no own key [__proto__],
    [addAttributeOptions(target, p, options)] succeeds and changes one
    thing only, the contents of the record of [p], which become the
    former contents overridden by [options]: the metadata store, the
    attribute maps and every other object are as before. *)
Theorem addAttributeOptions_only_merges (target : Target) (p : string)
    (record : loc) (old options : gmap string value) (σ : state) :
  has_attribute target p record old σ ->
  options !! "__proto__" = None ->
  let σ' := snd (addAttributeOptions target p options σ) in
  fst (addAttributeOptions target p options σ) = inr tt
  /\ σ' = set_objects <[record := options ∪ old]> σ
  /\ objects σ' !! record = Some (options ∪ old)
  /\ delete record (objects σ') = delete record (objects σ)
  /\ attribute_maps σ' = attribute_maps σ.
Proof.
  intros Hattribute _; simpl.
  rewrite (addAttributeOptions_state _ _ _ _ options _ Hattribute); simpl.
  split_and!; try done.
  - apply lookup_insert_eq.
  - apply delete_insert_eq.
Qed.

Lemma addAttributeOptions_only_merges_witness :
  let σ := snd (addAttribute User "title" {[ "type" := VString "STRING" ]}
                  empty_state) in
  let options : gmap string value := {[ "comment" := VString "headline" ]} in
  let σ' := snd (addAttributeOptions User "title" options σ) in
  has_attribute User "title" 1 {[ "type" := VString "STRING" ]} σ
  /\ options !! "__proto__" = None
  /\ fst (addAttributeOptions User "title" options σ) = inr tt
  /\ σ' = set_objects
            <[1%positive := options ∪ {[ "type" := VString "STRING" ]}]> σ
  /\ objects σ' !! 1%positive
     = Some (options ∪ {[ "type" := VString "STRING" ]})
  /\ delete 1%positive (objects σ') = delete 1%positive (objects σ)
  /\ attribute_maps σ' = attribute_maps σ.
Proof.
  assert (Hattribute :
    has_attribute User "title" 1 {[ "type" := VString "STRING" ]}
      (snd (addAttribute User "title" {[ "type" := VString "STRING" ]}
              empty_state))).
  { exists 1%positive. vm_compute. repeat split; reflexivity. }
  split; [exact Hattribute|]. split; [reflexivity|].
  exact (addAttributeOptions_only_merges User "title" 1
           {[ "type" := VString "STRING" ]}
           {[ "comment" := VString "headline" ]} _ Hattribute eq_refl).
Defined.

(** Two merges are one merge of the union. *)
Lemma addAttributeOptions_twice (target : Target) (p : string)
    (record : loc) (old a b : gmap string value) (σ : state) :
  has_attribute target p record old σ ->
  (addAttributeOptions target p a ;; addAttributeOptions target p b) σ
  = addAttributeOptions target p (b ∪ a) σ.
Proof.
  intros Hattribute.
  destruct (addAttributeOptions_has_attribute target p record old a σ
              Hattribute) as [Hok Hnext].
  rewrite (bind_ok _ _ _ _ Hok).
  rewrite (addAttributeOptions_state _ _ _ _ b _ Hnext).
  rewrite (addAttributeOptions_state _ _ _ _ a _ Hattribute).
  rewrite (addAttributeOptions_state _ _ _ _ (b ∪ a) _ Hattribute).
  simpl. f_equal. unfold set_objects; simpl.
  by rewrite insert_insert_eq, (assoc_L (∪)).
Qed.

(** X2: merges compose.  On a property for which the attribute map has
    an entry, and for options [o1] and [o2] that have no own key
    [__proto__], merging [o1] and then [o2] gives the same result and the
    same state as the single merge of [o2 ∪ o1], the union in which [o2]
    overrides [o1]; in particular merging the same options twice is the
    same as merging them once. *)
Theorem addAttributeOptions_compose (target : Target) (p : string)
    (record : loc) (old o1 o2 : gmap string value) (σ : state) :
  has_attribute target p record old σ ->
  o1 !! "__proto__" = None ->
  o2 !! "__proto__" = None ->
  (addAttributeOptions target p o1 ;; addAttributeOptions target p o2) σ
  = addAttributeOptions target p (o2 ∪ o1) σ
  /\ (addAttributeOptions target p o1 ;; addAttributeOptions target p o1) σ
     = addAttributeOptions target p o1 σ.
Proof.
  intros Hattribute _ _.
  split; [by apply (addAttributeOptions_twice _ _ record old)|].
  rewrite (addAttributeOptions_twice _ _ record old) by done.
  by rewrite (idemp_L (∪)).
Qed.

Lemma addAttributeOptions_compose_witness :
  let σ := snd (addAttribute User "title" {[ "type" := VString "STRING" ]}
                  empty_state) in
  let o1 : gmap string value :=
    {[ "comment" := VString "draft"; "allowNull" := VBool false ]} in
  let o2 : gmap string value := {[ "comment" := VString "headline" ]} in
  has_attribute User "title" 1 {[ "type" := VString "STRING" ]} σ
  /\ o1 !! "__proto__" = None
  /\ o2 !! "__proto__" = None
  /\ (addAttributeOptions User "title" o1 ;; addAttributeOptions User "title" o2) σ
     = addAttributeOptions User "title" (o2 ∪ o1) σ
  /\ (addAttributeOptions User "title" o1 ;; addAttributeOptions User "title" o1) σ
     = addAttributeOptions User "title" o1 σ.
Proof.
  assert (Hattribute :
    has_attribute User "title" 1 {[ "type" := VString "STRING" ]}
      (snd (addAttribute User "title" {[ "type" := VString "STRING" ]}
              empty_state))).
  { exists 1%positive. vm_compute. repeat split; reflexivity. }
  split; [exact Hattribute|]. split; [reflexivity|]. split; [reflexivity|].
  exact (addAttributeOptions_compose User "title" 1
           {[ "type" := VString "STRING" ]}
           {[ "comment" := VString "draft"; "allowNull" := VBool false ]}
           {[ "comment" := VString "headline" ]} _ Hattribute
           eq_refl eq_refl).
Defined.

(** X3: the last comment wins.  On a property that has an attribute,
    applying [Comment(v1)] and then [Comment(v2)] gives the same result
    and the same state as applying [Comment(v2)] alone. *)
Theorem Comment_last_wins (target : Target) (p : string) (record : loc)
    (old : gmap string value) (v1 v2 : string) (σ : state) :
  has_attribute target p record old σ ->
  (Comment v1 target p ;; Comment v2 target p) σ = Comment v2 target p σ.
Proof.
  intros Hattribute. unfold Comment.
  rewrite (addAttributeOptions_twice _ _ record old) by done.
  rewrite !(addAttributeOptions_state _ _ _ _ _ _ Hattribute).
  do 3 f_equal; apply map_eq; intros key;
    rewrite !lookup_union, !lookup_singleton;
    by destruct (decide ("comment" = key)).
Qed.

Lemma Comment_last_wins_witness :
  let σ := snd (addAttribute User "title" ∅ empty_state) in
  has_attribute User "title" 1 ∅ σ
  /\ (Comment "draft" User "title" ;; Comment "headline" User "title") σ
     = Comment "headline" User "title" σ.
Proof.
  assert (Hattribute :
    has_attribute User "title" 1 ∅
      (snd (addAttribute User "title" ∅ empty_state))).
  { exists 1%positive. vm_compute. repeat split; reflexivity. }
  split; [exact Hattribute|].
  exact (Comment_last_wins User "title" 1 ∅ "draft" "headline" _ Hattribute).
Defined.

(** ** What a registration leaves alone *)

Lemma fresh_not_allocated {V} (m : gmap positive V) (l : positive) (v : V) :
  m !! l = Some v -> l <> fresh (dom m).
Proof.
  intros Hl ->. apply (is_fresh (dom m)). apply elem_of_dom. by eexists.
Qed.

(** X4: [addAttribute(target, p, options)] leaves the attributes of the
    other properties of the class as they are: the record that the class
    has for a property [q] other than [p] is the same after the call. *)
Theorem addAttribute_keeps_other_attributes (target : Target) (p q : string)
    (options old : gmap string value) (σ : state) :
  q <> p ->
  attribute_record target q σ = Some old ->
  attribute_record target q (snd (addAttribute target p options σ)) = Some old.
Proof.
  intros Hq. unfold attribute_record.
  unfold addAttribute, getAttributes, setAttributes, new_attribute_map,
    new_object, set_attribute.
  unfold_Reflect. unfold_M. simpl.
  destruct (OrdinaryGetMetadata (md_attributes σ) target None)
    as [attributes|] eqn:Hmap; simpl; [|done].
  rewrite Hmap; simpl. rewrite lookup_total_insert_eq.
  rewrite lookup_insert_ne by done.
  destruct ((attribute_maps σ !!! attributes) !! q) as [record|]; simpl;
    [|done].
  intros Hold. rewrite lookup_insert_ne; [done|].
  symmetry. by apply (fresh_not_allocated _ _ old).
Qed.

Lemma addAttribute_keeps_other_attributes_witness :
  let σ := snd (addAttribute User "title" {[ "type" := VString "STRING" ]}
                  empty_state) in
  "title" <> "body"
  /\ attribute_record User "title" σ = Some {[ "type" := VString "STRING" ]}
  /\ attribute_record User "title"
       (snd (addAttribute User "body" {[ "type" := VString "TEXT" ]} σ))
     = Some {[ "type" := VString "STRING" ]}.
Proof.
  split; [discriminate|]. split; [vm_compute; reflexivity|].
  apply (addAttribute_keeps_other_attributes User "body" "title");
    [discriminate | vm_compute; reflexivity].
Defined.

(** X5: a class that reads the attribute map of another class (a
    subclass whose parent class has attributes and which has none of its
    own) shares it.  For a name [p] other than [__proto__] and options
    without an own key [__proto__], [addAttribute] through one of the two
    classes defines no attribute map (the metadata of both classes is the
    same map as before) and the attribute that it registers is read
    through the other class. *)
Theorem addAttribute_shared_map (target other : Target) (p : string)
    (options : gmap string value) (attributes : loc) (σ : state) :
  p <> "__proto__" ->
  options !! "__proto__" = None ->
  fst (getAttributes target σ) = inr (Some attributes) ->
  fst (getAttributes other σ) = inr (Some attributes) ->
  let σ' := snd (addAttribute target p options σ) in
  md_attributes σ' = md_attributes σ
  /\ fst (getAttributes target σ') = inr (Some attributes)
  /\ fst (getAttributes other σ') = inr (Some attributes)
  /\ attribute_record other p σ' = Some options.
Proof.
  simpl. intros _ _ [= Htarget] [= Hother]. unfold attribute_record.
  unfold addAttribute, getAttributes, setAttributes, new_attribute_map,
    new_object, set_attribute.
  unfold_Reflect. unfold_M. simpl.
  rewrite Htarget; simpl. rewrite Htarget, Hother; simpl.
  split; [done|]. split; [done|]. split; [done|].
  rewrite lookup_total_insert_eq, !lookup_insert_eq; simpl.
  by rewrite lookup_insert_eq, Object_assign_copy.
Qed.

Lemma addAttribute_shared_map_witness :
  let σ := snd (addAttribute User "id" ∅ empty_state) in
  let options : gmap string value := {[ "type" := VString "STRING" ]} in
  let σ' := snd (addAttribute Admin "role" options σ) in
  "role" <> "__proto__"
  /\ options !! "__proto__" = None
  /\ fst (getAttributes Admin σ) = inr (Some 1%positive)
  /\ fst (getAttributes User σ) = inr (Some 1%positive)
  /\ md_attributes σ' = md_attributes σ
  /\ fst (getAttributes Admin σ') = inr (Some 1%positive)
  /\ fst (getAttributes User σ') = inr (Some 1%positive)
  /\ attribute_record User "role" σ' = Some options.
Proof.
  split; [discriminate|]. split; [reflexivity|].
  split; [reflexivity|]. split; [reflexivity|].
  apply (addAttribute_shared_map Admin User "role"
           {[ "type" := VString "STRING" ]} 1
           (snd (addAttribute User "id" ∅ empty_state)));
    [discriminate | reflexivity | reflexivity | reflexivity].
Defined.

(** X6: a merge made through one class is seen through every class that
    reads the same attribute map: when the map has an entry for [p] and
    [options] has no own key [__proto__], after
    [addAttributeOptions(target, p, options)] the other class reads, for
    [p], the former record overridden by [options]. *)
Theorem addAttributeOptions_shared_map (target other : Target) (p : string)
    (record : loc) (old options : gmap string value) (σ : state) :
  options !! "__proto__" = None ->
  fst (getAttributes other σ) = fst (getAttributes target σ) ->
  has_attribute target p record old σ ->
  attribute_record other p (snd (addAttributeOptions target p options σ))
  = Some (options ∪ old).
Proof.
  simpl. intros _ [= Hsame] Hattribute.
  rewrite (addAttributeOptions_state _ _ _ _ options _ Hattribute).
  destruct Hattribute as (attributes & Hmap & Hentry & Hobject).
  unfold attribute_record; simpl. rewrite Hsame, Hmap; simpl.
  rewrite Hentry; simpl. apply lookup_insert_eq.
Qed.

Lemma addAttributeOptions_shared_map_witness :
  let σ := snd (addAttribute User "title" {[ "type" := VString "STRING" ]}
                  empty_state) in
  ({[ "comment" := VString "headline" ]} : gmap string value) !! "__proto__"
  = None
  /\ fst (getAttributes User σ) = fst (getAttributes Admin σ)
  /\ has_attribute Admin "title" 1 {[ "type" := VString "STRING" ]} σ
  /\ attribute_record User "title"
       (snd (Comment "headline" Admin "title" σ))
     = Some ({[ "comment" := VString "headline" ]}
             ∪ {[ "type" := VString "STRING" ]}).
Proof.
  assert (Hattribute :
    has_attribute Admin "title" 1 {[ "type" := VString "STRING" ]}
      (snd (addAttribute User "title" {[ "type" := VString "STRING" ]}
              empty_state))).
  { exists 1%positive. vm_compute. repeat split; reflexivity. }
  split; [reflexivity|]. split; [reflexivity|]. split; [exact Hattribute|].
  apply (addAttributeOptions_shared_map Admin User "title" 1
           {[ "type" := VString "STRING" ]}
           {[ "comment" := VString "headline" ]});
    [reflexivity | reflexivity | exact Hattribute].
Defined.

(** X7: a merge into the record of one property does not change the
    record of another property, of the same class or of another class,
    when the two records are different objects. *)
Theorem addAttributeOptions_keeps_other_records (target other : Target)
    (p q : string) (record record' : loc)
    (old old' options : gmap string value) (σ : state) :
  has_attribute target p record old σ ->
  has_attribute other q record' old' σ ->
  record' <> record ->
  attribute_record other q (snd (addAttributeOptions target p options σ))
  = Some old'.
Proof.
  intros Hattribute (attributes & Hmap & Hentry & Hobject) Hdifferent.
  rewrite (addAttributeOptions_state _ _ _ _ options _ Hattribute).
  unfold attribute_record; simpl. rewrite Hmap; simpl. rewrite Hentry; simpl.
  by rewrite lookup_insert_ne.
Qed.

Lemma addAttributeOptions_keeps_other_records_witness :
  let σ := snd ((addAttribute User "title" {[ "type" := VString "STRING" ]} ;;
                 addAttribute User "body" {[ "type" := VString "TEXT" ]})
                  empty_state) in
  has_attribute User "title" 1 {[ "type" := VString "STRING" ]} σ
  /\ has_attribute User "body" 2 {[ "type" := VString "TEXT" ]} σ
  /\ 2%positive <> 1%positive
  /\ attribute_record User "body" (snd (Comment "headline" User "title" σ))
     = Some {[ "type" := VString "TEXT" ]}.
Proof.
  assert (Htitle :
    has_attribute User "title" 1 {[ "type" := VString "STRING" ]}
      (snd ((addAttribute User "title" {[ "type" := VString "STRING" ]} ;;
             addAttribute User "body" {[ "type" := VString "TEXT" ]})
              empty_state))).
  { exists 1%positive. vm_compute. repeat split; reflexivity. }
  assert (Hbody :
    has_attribute User "body" 2 {[ "type" := VString "TEXT" ]}
      (snd ((addAttribute User "title" {[ "type" := VString "STRING" ]} ;;
             addAttribute User "body" {[ "type" := VString "TEXT" ]})
              empty_state))).
  { exists 1%positive. vm_compute. repeat split; reflexivity. }
  split; [exact Htitle|]. split; [exact Hbody|]. split; [discriminate|].
  exact (addAttributeOptions_keeps_other_records User User "title" "body" 1 2
           _ _ {[ "comment" := VString "headline" ]} _ Htitle Hbody
           ltac:(discriminate)).
Defined.

(** ** The names of the attributes *)

(** X8: for a name [p] other than [__proto__],
    [addAttribute(target, p, options)] registers the one name [p]: the
    property names of the attribute map of the class are the former names
    and [p] (the name [p] alone when the class had no attribute map). *)
Theorem addAttribute_names (target : Target) (p : string)
    (options : gmap string value) (σ : state) :
  p <> "__proto__" ->
  attribute_names target (snd (addAttribute target p options σ))
  = {[ p ]} ∪ attribute_names target σ.
Proof.
  intros _. unfold attribute_names.
  unfold addAttribute, getAttributes, setAttributes, new_attribute_map,
    new_object, set_attribute.
  unfold_Reflect. unfold_M. simpl.
  destruct (OrdinaryGetMetadata (md_attributes σ) target None)
    as [attributes|] eqn:Hmap; simpl.
  - rewrite Hmap. by rewrite lookup_total_insert_eq, dom_insert_L.
  - rewrite OrdinaryGetMetadata_defined.
    by rewrite !lookup_total_insert_eq, dom_insert_L.
Qed.

Lemma addAttribute_names_witness :
  let σ := snd (addAttribute User "id" ∅ empty_state) in
  "role" <> "__proto__"
  /\ attribute_names Admin
       (snd (addAttribute Admin "role" {[ "type" := VString "STRING" ]} σ))
     = {[ "role" ]} ∪ attribute_names Admin σ.
Proof.
  split; [discriminate|].
  apply (addAttribute_names Admin "role" {[ "type" := VString "STRING" ]}
           (snd (addAttribute User "id" ∅ empty_state))).
  discriminate.
Defined.




(** X11: [setAttributes(target, attributes)] gives the class a map of its
    own, in place of the map it read from its prototype chain:
    [getAttributes(target)] returns [attributes]; a following
    [addAttribute] on the class, for a name [p] other than [__proto__]
    and options without an own key [__proto__], registers the property
    in that map, and every other attribute map, the one of the parent
    class included, is as before. *)
Theorem setAttributes_own_map (target : Target) (attributes : loc)
    (p : string) (options : gmap string value) (σ : state) :
  p <> "__proto__" ->
  options !! "__proto__" = None ->
  fst ((setAttributes target attributes ;; getAttributes target) σ)
  = inr (Some attributes)
  /\ let σ' := snd ((setAttributes target attributes ;;
                     addAttribute target p options) σ) in
     fst (getAttributes target σ') = inr (Some attributes)
     /\ attribute_record target p σ' = Some options
     /\ delete attributes (attribute_maps σ')
        = delete attributes (attribute_maps σ).
Proof.
  intros _ _. unfold attribute_record.
  unfold addAttribute, getAttributes, setAttributes, new_attribute_map,
    new_object, set_attribute.
  unfold_Reflect. unfold_M. simpl.
  rewrite !OrdinaryGetMetadata_defined; simpl.
  rewrite !OrdinaryGetMetadata_defined; simpl.
  split; [done|]. split; [done|].
  rewrite lookup_total_insert_eq, !lookup_insert_eq; simpl.
  rewrite lookup_insert_eq, Object_assign_copy. split; [done|].
  apply delete_insert_eq.
Qed.

Lemma setAttributes_own_map_witness :
  let σ := snd ((addAttribute User "id" ∅ ;;
                 addAttribute (mkTarget 3 "Post" None) "title" ∅) empty_state) in
  let options : gmap string value := {[ "type" := VString "STRING" ]} in
  let σ' := snd ((setAttributes Admin 2 ;; addAttribute Admin "role" options) σ) in
  "role" <> "__proto__"
  /\ options !! "__proto__" = None
  /\ fst (getAttributes Admin σ) = inr (Some 1%positive)
  /\ fst ((setAttributes Admin 2 ;; getAttributes Admin) σ)
     = inr (Some 2%positive)
  /\ fst (getAttributes Admin σ') = inr (Some 2%positive)
  /\ attribute_record Admin "role" σ' = Some options
  /\ delete 2%positive (attribute_maps σ') = delete 2%positive (attribute_maps σ).
Proof.
  split; [discriminate|]. split; [reflexivity|]. split; [reflexivity|].
  apply (setAttributes_own_map Admin 2 "role" {[ "type" := VString "STRING" ]}
           (snd ((addAttribute User "id" ∅ ;;
                  addAttribute (mkTarget 3 "Post" None) "title" ∅) empty_state)));
    [discriminate | reflexivity].
Defined.

(** ** Merging options *)

(** X12: for [options] without an own key [__proto__] and a key other
    than [__proto__]: the options stored after [setOptions(target,
    options)] have, for the key, the value of [options] if it has the key
    and the default otherwise, whatever was stored before; the options
    stored after [addOptions(target, options)] have the value of
    [options] if it has the key, otherwise the value stored before,
    otherwise the default. *)
Theorem stored_options_key_wise (target : Target)
    (options : gmap string value) (key : string) (σ : state) :
  options !! "__proto__" = None ->
  key <> "__proto__" ->
  (exists stored,
     stored_options target (snd (setOptions target options σ)) = Some stored
     /\ stored !! key = latest_value key [DEFAULT_OPTIONS; options])
  /\ (exists stored,
        stored_options target (snd (addOptions target options σ)) = Some stored
        /\ stored !! key
           = latest_value key
               [DEFAULT_OPTIONS; default ∅ (stored_options target σ); options]).
Proof.
  intros _ _. split.
  - destruct (setOptions_stored target options σ) as [_ Hstored].
    eexists; split; [exact Hstored|].
    rewrite lookup_Object_assign.
    by destruct (latest_value key [DEFAULT_OPTIONS; options]).
  - destruct (addOptions_stored target options σ) as [_ Hstored].
    eexists; split; [exact Hstored|].
    rewrite !lookup_Object_assign; simpl. rewrite !lookup_Object_assign; simpl.
    destruct (options !! key); [done|].
    destruct (default ∅ (stored_options target σ) !! key); [done|].
    by destruct (DEFAULT_OPTIONS !! key).
Qed.

Lemma stored_options_key_wise_witness :
  let σ := snd (setOptions User {[ "timestamps" := VBool true;
                                    "paranoid" := VBool true ]} empty_state) in
  let options : gmap string value := {[ "underscored" := VBool true ]} in
  options !! "__proto__" = None
  /\ "paranoid" <> "__proto__"
  /\ (exists stored,
        stored_options Admin (snd (setOptions Admin options σ)) = Some stored
        /\ stored !! "paranoid"
           = latest_value "paranoid" [DEFAULT_OPTIONS; options])
  /\ (exists stored,
        stored_options Admin (snd (addOptions Admin options σ)) = Some stored
        /\ stored !! "paranoid"
           = latest_value "paranoid"
               [DEFAULT_OPTIONS; default ∅ (stored_options Admin σ); options]).
Proof.
  split; [reflexivity|]. split; [discriminate|].
  apply (stored_options_key_wise Admin {[ "underscored" := VBool true ]}
           "paranoid"
           (snd (setOptions User {[ "timestamps" := VBool true;
                                     "paranoid" := VBool true ]} empty_state)));
    [reflexivity | discriminate].
Defined.

(** X13: [addOptions] composes: the options stored after
    [addOptions(target, o1)] and [addOptions(target, o2)] are those
    stored after the single call [addOptions(target, o2 ∪ o1)], the
    union in which [o2] overrides [o1]. *)
Theorem addOptions_compose (target : Target) (o1 o2 : gmap string value)
    (σ : state) :
  fst ((addOptions target o1 ;; addOptions target o2) σ) = inr tt
  /\ stored_options target
       (snd ((addOptions target o1 ;; addOptions target o2) σ))
     = stored_options target (snd (addOptions target (o2 ∪ o1) σ)).
Proof.
  destruct (addOptions_stored target o1 σ) as [Hok1 Hstored1].
  destruct (addOptions_stored target o2 (snd (addOptions target o1 σ)))
    as [Hok2 Hstored2].
  destruct (addOptions_stored target (o2 ∪ o1) σ) as [_ Hstored].
  rewrite (bind_ok _ _ _ _ Hok1). split; [exact Hok2|].
  rewrite Hstored2, Hstored, Hstored1; simpl. f_equal.
  apply map_eq. intros key.
  rewrite !lookup_Object_assign; simpl. rewrite !lookup_Object_assign; simpl.
  rewrite !lookup_Object_assign; simpl. rewrite lookup_union.
  destruct (o2 !! key), (o1 !! key); try done.
  by destruct (default ∅ (stored_options target σ) !! key),
       (DEFAULT_OPTIONS !! key).
Qed.

(** X14: [addOptions] on a class that has options, its own or those of
    its parent class, with an argument that has no own key [__proto__]
    (and stored options that have none), writes its argument into the
    object that holds them, without the defaults, and gives the class a
    new object that holds the result with the defaults: the object that
    [getOptions] returned before the call has changed, and [getOptions]
    returns another one. *)
Theorem addOptions_writes_into_stored_object (target : Target)
    (options old : gmap string value) (stored : loc) (σ : state) :
  fst (getOptions target σ) = inr (Some stored) ->
  objects σ !! stored = Some old ->
  options !! "__proto__" = None ->
  old !! "__proto__" = None ->
  let σ' := snd (addOptions target options σ) in
  objects σ' !! stored = Some (options ∪ old)
  /\ exists stored',
       fst (getOptions target σ') = inr (Some stored')
       /\ stored' <> stored
       /\ objects σ' !! stored'
          = Some (Object_assign ∅ [DEFAULT_OPTIONS; options ∪ old]).
Proof.
  simpl. intros [= Hstored] Hold _ _.
  unfold addOptions, getOptions, assign_object, read_object, setOptions,
    new_object.
  unfold_Reflect. unfold_M. simpl. rewrite Hstored; simpl.
  rewrite OrdinaryGetMetadata_defined.
  rewrite lookup_total_insert_eq, (lookup_total_correct _ _ _ Hold).
  change (Object_assign old [options]) with (options ∪ old).
  assert (Hfresh : fresh (dom (<[stored := options ∪ old]> (objects σ)))
                   <> stored).
  { intros Heq. apply (is_fresh (dom (<[stored := options ∪ old]> (objects σ)))).
    rewrite Heq at 1. apply elem_of_dom. rewrite lookup_insert_eq. by eexists. }
  split.
  - rewrite lookup_insert_ne by done. apply lookup_insert_eq.
  - eexists. split; [reflexivity|]. split; [exact Hfresh|].
    apply lookup_insert_eq.
Qed.

Lemma addOptions_writes_into_stored_object_witness :
  let σ := snd (setOptions User {[ "timestamps" := VBool true ]} empty_state) in
  let σ' := snd (addOptions Admin {[ "paranoid" := VBool true ]} σ) in
  fst (getOptions Admin σ) = inr (Some 1%positive)
  /\ objects σ !! 1%positive = Some {[ "timestamps" := VBool true ]}
  /\ ({[ "paranoid" := VBool true ]} : gmap string value) !! "__proto__" = None
  /\ ({[ "timestamps" := VBool true ]} : gmap string value) !! "__proto__" = None
  /\ objects σ' !! 1%positive
     = Some ({[ "paranoid" := VBool true ]} ∪ {[ "timestamps" := VBool true ]})
  /\ exists stored',
       fst (getOptions Admin σ') = inr (Some stored')
       /\ stored' <> 1%positive
       /\ objects σ' !! stored'
          = Some (Object_assign ∅
                    [DEFAULT_OPTIONS;
                     {[ "paranoid" := VBool true ]}
                     ∪ {[ "timestamps" := VBool true ]}]).
Proof.
  split; [reflexivity|]. split; [vm_compute; reflexivity|].
  split; [reflexivity|]. split; [reflexivity|].
  apply (addOptions_writes_into_stored_object Admin
           {[ "paranoid" := VBool true ]} {[ "timestamps" := VBool true ]} 1
           (snd (setOptions User {[ "timestamps" := VBool true ]} empty_state)));
    [reflexivity | vm_compute; reflexivity | reflexivity | reflexivity].
Defined.

(** ** An invariant of the options *)

Lemma has_timestamps_fresh h stored contents :
  has_timestamps h stored ->
  has_timestamps (<[fresh (dom h) := contents]> h) stored.
Proof.
  intros (options & Hstored & Hkey). exists options. split; [|done].
  rewrite lookup_insert_ne; [done|].
  symmetry. by apply (fresh_not_allocated _ _ options).
Qed.

Lemma has_timestamps_assign h stored target sources :
  has_timestamps h stored ->
  has_timestamps (<[target := Object_assign (h !!! target) [sources]]> h) stored.
Proof.
  intros (options & Hstored & Hkey).
  destruct (decide (target = stored)) as [->|Hother].
  - eexists. rewrite lookup_insert_eq. split; [done|].
    rewrite (lookup_total_correct _ _ _ Hstored).
    change (Object_assign options [sources]) with (sources ∪ options).
    apply lookup_union_is_Some. by right.
  - exists options. by rewrite lookup_insert_ne.
Qed.

Lemma has_timestamps_default h options :
  has_timestamps (<[fresh (dom h) := Object_assign ∅ [DEFAULT_OPTIONS; options]]> h)
    (fresh (dom h)).
Proof.
  eexists. rewrite lookup_insert_eq. split; [done|].
  rewrite lookup_timestamps_default. by eexists.
Qed.

Lemma run_call_options_have_timestamps (call : Call) (σ : state) :
  options_have_timestamps σ ->
  options_have_timestamps (snd (run_call call σ)).
Proof.
  intros Hinv. change (forall key stored, md_options σ !! key = Some stored ->
                                          has_timestamps (objects σ) stored) in Hinv.
  unfold options_have_timestamps.
  change (forall key stored,
            md_options (snd (run_call call σ)) !! key = Some stored ->
            has_timestamps (objects (snd (run_call call σ))) stored).
  destruct call; unfold_calls.
  - exact Hinv.
  - exact Hinv.
  - destruct (OrdinaryGetMetadata (md_attributes σ) target None); simpl;
      intros key stored Hkey; apply has_timestamps_fresh; eauto.
  - destruct (OrdinaryGetMetadata (md_attributes σ) target None)
      as [attributes|]; simpl; [|exact Hinv].
    destruct ((attribute_maps σ !!! attributes) !! propertyName); simpl;
      [|exact Hinv].
    intros key stored Hkey. apply has_timestamps_assign; eauto.
  - destruct (OrdinaryGetMetadata (md_attributes σ) target None)
      as [attributes|]; simpl; [|exact Hinv].
    destruct ((attribute_maps σ !!! attributes) !! propertyName); simpl;
      [|exact Hinv].
    intros key stored Hkey. apply has_timestamps_assign; eauto.
  - intros key stored [[_ <-]|[_ Hkey]]%lookup_insert_Some.
    + apply has_timestamps_default.
    + apply has_timestamps_fresh; eauto.
  - destruct (OrdinaryGetMetadata (md_options σ) target None)
      as [_options|]; simpl.
    + intros key stored [[_ <-]|[_ Hkey]]%lookup_insert_Some.
      * apply has_timestamps_default.
      * apply has_timestamps_fresh, has_timestamps_assign; eauto.
    + intros key stored [[_ <-]|[_ Hkey]]%lookup_insert_Some.
      * apply has_timestamps_default.
      * apply has_timestamps_fresh.
        apply (has_timestamps_assign
                 (<[fresh (dom (objects σ)) := ∅]> (objects σ))).
        apply has_timestamps_fresh; eauto.
  - destruct (OrdinaryGetMetadata (md_foreignKeys σ) target None); simpl;
      exact Hinv.
Qed.

Lemma run_history_options_have_timestamps (history : list Call) : forall σ,
  options_have_timestamps σ ->
  options_have_timestamps (run_history history σ).
Proof.
  induction history as [|call history IH]; intros σ Hinv; [done|].
  simpl. by apply IH, run_call_options_have_timestamps.
Qed.

(** X15: model options always include [timestamps].  After any history
    of calls of the functions of the file, on any classes and in any
    order, calls that throw included, the options that [getOptions]
    returns for a class, if it returns some, have the key
    [timestamps]. *)
Theorem stored_options_always_have_timestamps (history : list Call)
    (target : Target) (stored : loc) :
  let σ := run_history history empty_state in
  fst (getOptions target σ) = inr (Some stored) ->
  exists options v,
    objects σ !! stored = Some options
    /\ options !! "timestamps" = Some v.
Proof.
  simpl. intros [= Hstored].
  apply OrdinaryGetMetadata_Some in Hstored as (id & _ & Hkey).
  destruct (run_history_options_have_timestamps history empty_state)
    with (key := (id, @None string)) (stored := stored)
    as (options & Hoptions & [v Hv]); [|exact Hkey|by exists options, v].
  intros key l. simpl. by rewrite lookup_empty.
Qed.

Lemma stored_options_always_have_timestamps_witness :
  let history :=
    [CallSetOptions User {[ "timestamps" := VBool true ]};
     CallAddAttribute User "id" ∅;
     CallComment "x" Admin "ghost";
     CallAddOptions Admin {[ "paranoid" := VBool true ]};
     CallSetModelName Admin "Admin"] in
  let σ := run_history history empty_state in
  fst (getOptions Admin σ) = inr (Some 3%positive)
  /\ exists options v,
       objects σ !! 3%positive = Some options
       /\ options !! "timestamps" = Some v.
Proof.
  split; [vm_compute; reflexivity|].
  apply (stored_options_always_have_timestamps
           [CallSetOptions User {[ "timestamps" := VBool true ]};
            CallAddAttribute User "id" ∅;
            CallComment "x" Admin "ghost";
            CallAddOptions Admin {[ "paranoid" := VBool true ]};
            CallSetModelName Admin "Admin"] Admin 3).
  vm_compute; reflexivity.
Defined.

(** ** What a call leaves alone *)

Lemma OrdinaryGetMetadata_ext {A} (store store' : gmap (positive * option string) A)
    (t : Target) (P : option string) :
  (forall id, id ∈ prototype_chain t -> store' !! (id, P) = store !! (id, P)) ->
  OrdinaryGetMetadata store' t P = OrdinaryGetMetadata store t P.
Proof.
  induction t as [id name|id name parent IH] using Target_chain_ind;
    simpl; intros Hchain.
  - rewrite Hchain; [done|apply list_elem_of_here].
  - rewrite Hchain; [|apply list_elem_of_here].
    rewrite IH; [done|]. intros id' Hid'. by apply Hchain, list_elem_of_further.
Qed.

Lemma run_call_foreignKeys call σ key :
  sets_foreignKeys call = false \/ (target_id (call_target call), None) <> key ->
  md_foreignKeys (snd (run_call call σ)) !! key = md_foreignKeys σ !! key.
Proof.
  intros Hother.
  destruct call; unfold_calls; case_lookups σ; try done;
    (destruct Hother as [Hset|Hkey]; [done|]; by rewrite lookup_insert_ne).
Qed.

Lemma run_call_arrays call σ :
  sets_foreignKeys call = false -> arrays (snd (run_call call σ)) = arrays σ.
Proof.
  intros Hother. by destruct call; unfold_calls; case_lookups σ.
Qed.

Lemma run_call_designType call σ :
  md_designType (snd (run_call call σ)) = md_designType σ.
Proof. by destruct call; unfold_calls; case_lookups σ. Qed.

Section Frame.

Context {A : Type}.
Variable setter : Call -> bool.
Variable store : state -> gmap (positive * option string) A.
Hypothesis run_call_store : forall call σ key,
  setter call = false \/ (target_id (call_target call), None) <> key ->
  store (snd (run_call call σ)) !! key = store σ !! key.

Lemma run_call_reader (target : Target) (call : Call) (σ : state) :
  sets_on_chain setter target call = false ->
  OrdinaryGetMetadata (store (snd (run_call call σ))) target None
  = OrdinaryGetMetadata (store σ) target None.
Proof.
  intros Hcall. apply OrdinaryGetMetadata_ext. intros id Hid.
  apply run_call_store.
  apply andb_false_iff in Hcall as [Hset|Hchain]; [by left|right].
  apply bool_decide_eq_false in Hchain. intros [= Heq]. by rewrite Heq in Hchain.
Qed.

End Frame.

(** X16: which object a reader returns is changed only by its own
    setters, and only through the prototype chain.  A call that is not a
    setter of the model name on the class or on a class of its prototype
    chain leaves the name that [getModelName] returns for the class as it
    was; a call that is not [setAttributes] or [addAttribute] on the
    class or its chain leaves [getAttributes] returning the same map (the
    same reference: its entries may have changed through a class that
    shares it); the same holds of [getOptions] with [setOptions] and
    [addOptions], and of the private [getForeignKeys] with
    [addForeignKey]; and a call other than [addForeignKey] leaves the
    foreign keys of every class, contents included, as they were. *)
Theorem readers_frame (call : Call) (target : Target) (σ : state) :
  let σ' := snd (run_call call σ) in
  (sets_on_chain sets_modelName target call = false ->
   fst (getModelName target σ') = fst (getModelName target σ))
  /\ (sets_on_chain sets_attributes target call = false ->
      fst (getAttributes target σ') = fst (getAttributes target σ))
  /\ (sets_on_chain sets_options target call = false ->
      fst (getOptions target σ') = fst (getOptions target σ))
  /\ (sets_on_chain sets_foreignKeys target call = false ->
      fst (getForeignKeys target σ') = fst (getForeignKeys target σ))
  /\ (sets_foreignKeys call = false ->
      foreign_key_list target σ' = foreign_key_list target σ).
Proof.
  simpl. split_and!; intros Hcall.
  - f_equal. by apply (run_call_reader sets_modelName md_modelName
                         run_call_modelName).
  - f_equal. by apply (run_call_reader sets_attributes md_attributes
                         run_call_attributes).
  - f_equal. by apply (run_call_reader sets_options md_options
                         run_call_options).
  - f_equal. by apply (run_call_reader sets_foreignKeys md_foreignKeys
                         run_call_foreignKeys).
  - unfold foreign_key_list. rewrite (run_call_arrays _ _ Hcall).
    rewrite (run_call_reader sets_foreignKeys md_foreignKeys
               run_call_foreignKeys); [done|].
    unfold sets_on_chain. by rewrite Hcall.
Qed.

Lemma readers_frame_witness :
  let σ := run_history
             [CallSetModelName User "User"; CallAddAttribute User "id" ∅;
              CallSetOptions User ∅;
              CallAddForeignKey User (fun _ => Admin) "adminId"] empty_state in
  let call := CallAddOptions Admin {[ "paranoid" := VBool true ]} in
  let σ' := snd (run_call call σ) in
  (sets_on_chain sets_modelName User call = false
   /\ sets_on_chain sets_attributes User call = false
   /\ sets_on_chain sets_options User call = false
   /\ sets_on_chain sets_foreignKeys User call = false
   /\ sets_foreignKeys call = false)
  /\ fst (getModelName User σ') = fst (getModelName User σ)
  /\ fst (getAttributes User σ') = fst (getAttributes User σ)
  /\ fst (getOptions User σ') = fst (getOptions User σ)
  /\ fst (getForeignKeys User σ') = fst (getForeignKeys User σ)
  /\ foreign_key_list User σ' = foreign_key_list User σ.
Proof.
  split; [repeat split; vm_compute; reflexivity|].
  destruct (readers_frame
              (CallAddOptions Admin {[ "paranoid" := VBool true ]}) User
              (run_history
                 [CallSetModelName User "User"; CallAddAttribute User "id" ∅;
                  CallSetOptions User ∅;
                  CallAddForeignKey User (fun _ => Admin) "adminId"]
                 empty_state))
    as (HmodelName & Hattributes & Hoptions & HforeignKeys & Hlist).
  split; [apply HmodelName; vm_compute; reflexivity|].
  split; [apply Hattributes; vm_compute; reflexivity|].
  split; [apply Hoptions; vm_compute; reflexivity|].
  split; [apply HforeignKeys; vm_compute; reflexivity|].
  apply Hlist; vm_compute; reflexivity.
Defined.

(** X17: type inference depends on nothing that the file writes: no call
    of a setter, on any class, changes the result of
    [getSequelizeTypeByDesignType] for any class and property. *)
Theorem type_inference_unaffected (call : Call) (target : Target)
    (propertyName : string) (σ : state) :
  fst (getSequelizeTypeByDesignType target propertyName (snd (run_call call σ)))
  = fst (getSequelizeTypeByDesignType target propertyName σ).
Proof.
  unfold getSequelizeTypeByDesignType. unfold_Reflect. unfold_M.
  simpl. rewrite run_call_designType.
  by destruct (OrdinaryGetMetadata (md_designType σ) target (Some propertyName))
       as [[]|].
Qed.


